(** * FaceRecognitionOffice dashboard scripts: model and verified properties

    Shallow embedding of the four browser-side scripts of the repository
    ([common.js], [users.js], [attendance.js], [register.js]) and proofs of
    the properties stated for them.

    Conventions of the embedding
    - A JavaScript string is a [string]: a sequence of code units, here
      restricted to the range U+0000..U+00FF, on which [toLowerCase] and
      [trim] are defined exactly as ECMAScript defines them.
    - Integers that the scripts manipulate (page numbers, identifiers, HTTP
      status codes) are [Z].
    - A settled promise is an [outcome]: a value or a thrown error.
    - A DOM region owned by a view is a record of the properties the script
      reads or writes. *)

From Stdlib Require Import ZArith List String Ascii Bool Lia.
From Stdlib Require Import Permutation Sorted DecimalString.
Import ListNotations.

Set Warnings "-register-all".

Local Open Scope string_scope.
Local Open Scope Z_scope.

(* ===================================================================== *)
(** * Part I. Definitions *)
(* ===================================================================== *)

(** ** JavaScript strings *)

Module JsString.

(** [String.prototype.toLowerCase] on one code unit of U+0000..U+00FF:
    A-Z and the Latin-1 capitals U+00C0..U+00DE (U+00D7, the multiplication
    sign, excepted) move up by 32; every other unit is unchanged. *)
Definition lower_unit (c : ascii) : ascii :=
  let n := N_of_ascii c in
  if ((65 <=? n) && (n <=? 90) ||
      (192 <=? n) && (n <=? 222) && negb (n =? 215))%N
  then ascii_of_N (n + 32) else c.

Fixpoint toLowerCase (s : string) : string :=
  match s with
  | EmptyString => EmptyString
  | String c s' => String (lower_unit c) (toLowerCase s')
  end.

(** [String.prototype.includes]: [t] occurs in [s] at some position. *)
Fixpoint includes (s t : string) : bool :=
  String.prefix t s ||
  match s with
  | EmptyString => false
  | String _ s' => includes s' t
  end.

(** WhiteSpace and LineTerminator code units below U+0100:
    TAB, LF, VT, FF, CR, SP and NBSP. *)
Definition is_space (c : ascii) : bool :=
  let n := N_of_ascii c in
  ((9 <=? n) && (n <=? 13) || (n =? 32) || (n =? 160))%N.

Fixpoint trimStart (s : string) : string :=
  match s with
  | EmptyString => EmptyString
  | String c s' => if is_space c then trimStart s' else s
  end.

Fixpoint trimEnd (s : string) : string :=
  match s with
  | EmptyString => EmptyString
  | String c s' =>
      match trimEnd s' with
      | EmptyString => if is_space c then EmptyString else String c EmptyString
      | t => String c t
      end
  end.

(** [String.prototype.trim]. *)
Definition trim (s : string) : string := trimEnd (trimStart s).

(** Truthiness of a string: the empty string is the only falsy one. *)
Definition truthy (s : string) : bool :=
  match s with EmptyString => false | _ => true end.

(** [String(n)] for an integer [n]: its decimal numeral. *)
Definition of_Z (z : Z) : string := NilZero.string_of_int (Z.to_int z).

(** [a < b] on two strings: lexicographic order of the code units. *)
Definition lt (a b : string) : bool := String.ltb a b.

(** [Array.prototype.join]. *)
Definition join (sep : string) (l : list string) : string :=
  String.concat sep l.

End JsString.

(** ** common.js: values, errors, fetch wrappers, toasts *)

Module Common.

(** A decoded response body: a JSON value as JavaScript holds it. Numbers
    are the integers; an object is its list of own properties in
    enumeration order. *)
Inductive jsval : Type :=
| VNull
| VBool (b : bool)
| VNum (z : Z)
| VStr (s : string)
| VArr (items : list jsval)
| VObj (props : list (string * jsval)).

(** The constructors of the error objects the scripts can catch. *)
Inductive errname : Type := Error | TypeError | SyntaxError.

Record jserror : Type := { ename : errname; message : string }.

(** A settled promise (or a completed [try] block). *)
Inductive outcome (A : Type) : Type :=
| Ok (a : A)
| Throw (e : jserror).
Arguments Ok {A} a.
Arguments Throw {A} e.

(** The body of a response: its text, or a stream that cannot be read, in
    which case [res.text()] and [res.json()] reject with a [TypeError]. *)
Inductive body : Type :=
| Readable (s : string)
| Unreadable (why : string).

(** The part of a [Response] that the wrappers read. [content_type] is
    [headers.get('content-type')] ([None] for [null]). *)
Record response : Type := {
  status : Z;
  statusText : string;
  content_type : option string;
  content : body
}.

(** [res.text()]. *)
Definition text (res : response) : outcome string :=
  match content res with
  | Readable s => Ok s
  | Unreadable why => Throw {| ename := TypeError; message := why |}
  end.

(** [res.ok]: the status is in the range 200-299. *)
Definition ok (res : response) : bool :=
  (200 <=? status res) && (status res <=? 299).

(** The template literal [`${res.status} ${res.statusText}`]. *)
Definition status_line (res : response) : string :=
  (JsString.of_Z (status res) ++ " " ++ statusText res)%string.

(** [x || ''] for a string or [null]. *)
Definition or_empty (x : option string) : string :=
  match x with
  | Some s => if JsString.truthy s then s else EmptyString
  | None => EmptyString
  end.

Section Wrappers.

(** [JSON.parse] is the platform's; [None] is a parse failure, which
    [res.json()] reports as a [SyntaxError] with the platform's text. *)
Variable JSON_parse : string -> option jsval.
Variable syntax_message : string -> string.

(** [res.json()]. *)
Definition json (res : response) : outcome jsval :=
  match text res with
  | Throw e => Throw e
  | Ok s =>
      match JSON_parse s with
      | Some v => Ok v
      | None => Throw {| ename := SyntaxError; message := syntax_message s |}
      end
  end.

(** [res.text()] as a value. *)
Definition text_value (res : response) : outcome jsval :=
  match text res with
  | Throw e => Throw e
  | Ok s => Ok (VStr s)
  end.

(** The common tail of both wrappers:
    [const ct = res.headers.get('content-type') || '';
     return ct.includes('application/json') ? res.json() : res.text();] *)
Definition decode (res : response) : outcome jsval :=
  let ct := or_empty (content_type res) in
  if JsString.includes ct "application/json" then json res else text_value res.

(** [apiGET(path)], as a function of what [fetch] settles to. *)
Definition apiGET (fetched : outcome response) : outcome jsval :=
  match fetched with
  | Throw e => Throw e
  | Ok res =>
      if negb (ok res)
      then Throw {| ename := Error; message := status_line res |}
      else decode res
  end.

(** [await res.text().catch(()=>null)]. *)
Definition text_or_null (res : response) : option string :=
  match text res with
  | Ok s => Some s
  | Throw _ => None
  end.

(** [text || `${res.status} ${res.statusText}`]. *)
Definition post_error_message (res : response) : string :=
  match text_or_null res with
  | Some s => if JsString.truthy s then s else status_line res
  | None => status_line res
  end.

(** [apiPOST(path, body, opts)], as a function of what [fetch] settles to. *)
Definition apiPOST (fetched : outcome response) : outcome jsval :=
  match fetched with
  | Throw e => Throw e
  | Ok res =>
      if negb (ok res)
      then Throw {| ename := Error; message := post_error_message res |}
      else decode res
  end.

End Wrappers.

(** *** Values as the scripts use them *)

(** Truthiness of a decoded value. *)
Definition truthy (v : jsval) : bool :=
  match v with
  | VNull => false
  | VBool b => b
  | VNum z => negb (z =? 0)
  | VStr s => JsString.truthy s
  | VArr _ | VObj _ => true
  end.

Fixpoint lookup (k : string) (props : list (string * jsval)) : option jsval :=
  match props with
  | [] => None
  | (k', v) :: rest => if String.eqb k k' then Some v else lookup k rest
  end.

(** [v.k] for a property name [k] that no prototype defines ([status],
    [message], [name], [timestamp]): the own property of an object,
    [undefined] ([None]) on every other non-null value. Reading a property
    of [null] throws; the scripts' guards for that case are modelled where
    the property is read. *)
Definition prop (v : jsval) (k : string) : option jsval :=
  match v with
  | VObj props => lookup k props
  | _ => None
  end.

Definition isArray (v : jsval) : bool :=
  match v with VArr _ => true | _ => false end.

(** [ToString] on a decoded value. *)
Fixpoint ToString (v : jsval) : string :=
  match v with
  | VNull => "null"
  | VBool true => "true"
  | VBool false => "false"
  | VNum z => JsString.of_Z z
  | VStr s => s
  | VArr items =>
      JsString.join ","
        (List.map (fun x => match x with VNull => EmptyString | _ => ToString x end) items)
  | VObj _ => "[object Object]"
  end.

(** [ToString] on a value that may be [undefined]. *)
Definition ToString_opt (v : option jsval) : string :=
  match v with
  | Some x => ToString x
  | None => "undefined"
  end.

(** *** Toasts *)

(** One call of [pushToast]. The element's random id is not kept. *)
Record toast : Type := { t_msg : string; t_type : string; t_ttl : Z }.

(** [pushToast(msg, type='info', ttl=6000)]: the new element is prepended
    to the container. The list is the container's children, newest first,
    before any timer or dismissal removes one. *)
Definition pushToast (msg : string) (type : string) (ts : list toast) : list toast :=
  {| t_msg := msg; t_type := type; t_ttl := 6000 |} :: ts.

End Common.

Export Common.

(** ** Arrays *)

Module JsArray.

Section Sort.
Context {A : Type}.
Variable comparefn : A -> A -> Z.

(** One insertion step: [x] stood to the left of every element of [l]
    and moves right only past elements [y] with [comparefn x y > 0]. *)
Fixpoint insert (x : A) (l : list A) : list A :=
  match l with
  | [] => [x]
  | y :: l' => if comparefn x y <=? 0 then x :: l else y :: insert x l'
  end.

(** [Array.prototype.sort(comparefn)]. ECMAScript fixes the result for a
    consistent comparator: the stable arrangement in which [b] comes
    before [a] only when [comparefn(a, b) > 0]. Insertion from the right
    computes it. *)
Fixpoint sort (l : list A) : list A :=
  match l with
  | [] => []
  | x :: l' => insert x (sort l')
  end.
End Sort.

(** [Array.prototype.slice(start, end)] on integer arguments. *)
Definition slice {A : Type} (l : list A) (start stop : Z) : list A :=
  let len := Z.of_nat (List.length l) in
  let rel i := if i <? 0 then Z.max (len + i) 0 else Z.min i len in
  let k := rel start in
  let final := rel stop in
  let count := Z.max (final - k) 0 in
  firstn (Z.to_nat count) (skipn (Z.to_nat k) l).

End JsArray.

(** [Math.ceil(a / b)] for integers [a] and [b > 0]. *)
Definition ceil_div (a b : Z) : Z := - ((- a) / b).

(** ** users.js *)

Module Users.

(** A user record as [GET /api/users] documents it: a numeric identifier,
    a name, and an email, a proxy and a salary that may be missing. *)
Record user : Type := {
  user_id : Z;
  name : string;
  email : option string;
  proxy : option string;
  salary : option Z
}.

(** The values [th.dataset.key] can take: the two headers [th(...)] makes. *)
Inductive sortkey : Type := K_user_id | K_name.

Inductive direction : Type := asc | desc.

Definition sortkey_eqb (a b : sortkey) : bool :=
  match a, b with
  | K_user_id, K_user_id | K_name, K_name => true
  | _, _ => false
  end.

Definition perPage : Z := 12.

(** The closure variables of [initUsers] and the DOM properties it
    writes. [rows] is the slice the table body is built from. *)
Record state : Type := {
  users : list user;
  filtered : list user;
  page : Z;
  sortKey : sortkey;
  sortDir : direction;
  q_value : string;
  count_text : string;
  pageInfo_text : string;
  prev_disabled : bool;
  next_disabled : bool;
  rows : list user;
  toasts : list toast
}.

(** [a[k] < b[k]]: numbers by value, strings by code units. *)
Definition lt_at (k : sortkey) (a b : user) : bool :=
  match k with
  | K_user_id => user_id a <? user_id b
  | K_name => JsString.lt (name a) (name b)
  end.

Definition cmp (sortDir : direction) (a b : user) (k : sortkey) : Z :=
  let d := match sortDir with asc => 1 | desc => -1 end in
  if lt_at k a b then -1 * d
  else if lt_at k b a then 1 * d
  else 0.

(** The text a record is searched in. *)
Definition haystack (u : user) : string :=
  (JsString.of_Z (user_id u) ++ name u ++ or_empty (email u) ++ or_empty (proxy u))%string.

(** The callback of [users.filter] for the search box value [q]. *)
Definition keep (q : string) (u : user) : bool :=
  let s := JsString.toLowerCase (or_empty (Some q)) in
  if negb (JsString.truthy s) then true
  else JsString.includes (JsString.toLowerCase (haystack u)) s.

Definition pages_of (n : nat) : Z := Z.max 1 (ceil_div (Z.of_nat n) perPage).

Definition clamp_page (pages p : Z) : Z := Z.min pages (Z.max 1 p).

Definition render (st : state) : state :=
  let filtered :=
    JsArray.sort (fun a b => cmp (sortDir st) a b (sortKey st))
      (List.filter (keep (q_value st)) (users st)) in
  let pages := pages_of (List.length filtered) in
  let page := clamp_page pages (page st) in
  {| users := users st;
     filtered := filtered;
     page := page;
     sortKey := sortKey st;
     sortDir := sortDir st;
     q_value := q_value st;
     count_text := (JsString.of_Z (Z.of_nat (List.length filtered)) ++ " results")%string;
     pageInfo_text := ("Page " ++ JsString.of_Z page ++ " / " ++ JsString.of_Z pages)%string;
     prev_disabled := page <=? 1;
     next_disabled := page >=? pages;
     rows := JsArray.slice filtered ((page - 1) * perPage) (page * perPage);
     toasts := toasts st |}.

Definition set_sort (k : sortkey) (d : direction) (st : state) : state :=
  {| users := users st; filtered := filtered st; page := page st;
     sortKey := k; sortDir := d; q_value := q_value st;
     count_text := count_text st; pageInfo_text := pageInfo_text st;
     prev_disabled := prev_disabled st; next_disabled := next_disabled st;
     rows := rows st; toasts := toasts st |}.

Definition set_page (p : Z) (st : state) : state :=
  {| users := users st; filtered := filtered st; page := p;
     sortKey := sortKey st; sortDir := sortDir st; q_value := q_value st;
     count_text := count_text st; pageInfo_text := pageInfo_text st;
     prev_disabled := prev_disabled st; next_disabled := next_disabled st;
     rows := rows st; toasts := toasts st |}.

Definition set_q (q : string) (st : state) : state :=
  {| users := users st; filtered := filtered st; page := page st;
     sortKey := sortKey st; sortDir := sortDir st; q_value := q;
     count_text := count_text st; pageInfo_text := pageInfo_text st;
     prev_disabled := prev_disabled st; next_disabled := next_disabled st;
     rows := rows st; toasts := toasts st |}.

Definition set_users (us : list user) (ts : list toast) (st : state) : state :=
  {| users := us; filtered := filtered st; page := page st;
     sortKey := sortKey st; sortDir := sortDir st; q_value := q_value st;
     count_text := count_text st; pageInfo_text := pageInfo_text st;
     prev_disabled := prev_disabled st; next_disabled := next_disabled st;
     rows := rows st; toasts := ts |}.

(** The listener bound to each sortable header. *)
Definition click_header (k : sortkey) (st : state) : state :=
  render
    (if sortkey_eqb (sortKey st) k
     then set_sort (sortKey st) (match sortDir st with asc => desc | desc => asc end) st
     else set_sort k asc st).

Definition click_prev (st : state) : state :=
  render (set_page (Z.max 1 (page st - 1)) st).

Definition click_next (st : state) : state :=
  render (set_page (page st + 1) st).

(** The [input] listener of the search box; [q] is the box's new value. *)
Definition input (q : string) (st : state) : state :=
  render (set_page 1 (set_q q st)).

(** The two callbacks on [apiGET('/api/users')]. The decoded body is an
    array of user records ([Some]) or not an array ([None]). *)
Definition loaded (r : outcome (option (list user))) (st : state) : state :=
  match r with
  | Ok (Some us) => render (set_users us (toasts st) st)
  | Ok None => render (set_users [] (toasts st) st)
  | Throw e =>
      render (set_users []
                (pushToast ("Failed to load users: " ++ message e)%string "error" (toasts st))
                st)
  end.

Inductive event : Type :=
| Loaded (r : outcome (option (list user)))
| Input (q : string)
| ClickHeader (k : sortkey)
| ClickPrev
| ClickNext.

Definition handle (st : state) (e : event) : state :=
  match e with
  | Loaded r => loaded r st
  | Input q => input q st
  | ClickHeader k => click_header k st
  | ClickPrev => click_prev st
  | ClickNext => click_next st
  end.

(** The state [initUsers] starts from, before anything is rendered; the
    texts and flags of the page's markup are parameters. *)
Definition init (q count info : string) (pd nd : bool) : state :=
  {| users := []; filtered := []; page := 1;
     sortKey := K_user_id; sortDir := asc; q_value := q;
     count_text := count; pageInfo_text := info;
     prev_disabled := pd; next_disabled := nd;
     rows := []; toasts := [] |}.

End Users.

(** ** Click handlers that await a request *)

Module Async.

(** A [File] chosen in a file input. *)
Record file : Type := { file_name : string }.

Inductive formvalue : Type :=
| Text (s : string)
| Blob (f : file).

(** A [FormData], in append order. *)
Definition formdata : Type := list (string * formvalue).

(** A [URLSearchParams]. *)
Definition params : Type := list (string * string).

(** [URLSearchParams.prototype.set]: the first pair named [k] takes the
    value, a missing name is appended. *)
Fixpoint params_set (k v : string) (ps : params) : params :=
  match ps with
  | [] => [(k, v)]
  | (k', v') :: rest =>
      if String.eqb k k' then (k, v) :: rest else (k', v') :: params_set k v rest
  end.

(** A call of one of the two wrappers. [GET path (Some ps)] is
    [apiGET(path + '?' + ps.toString())]; [POST path None] is
    [apiPOST(path, null)]. *)
Inductive request : Type :=
| GET (path : string) (query : option params)
| POST (path : string) (body : option formdata).

(** An [async] listener from its first [await] on: finished, or suspended
    on a request with the code that runs when the request settles. The
    resumed code sees the view's state as it is at that moment. *)
Inductive task (S : Type) : Type :=
| Done
| Await (rq : request) (k : outcome jsval -> S -> S * task S).
Arguments Done {S}.
Arguments Await {S} rq k.

(** A view with one request button: the button's [disabled] property, its
    click listener, and the other things the user can do to the view
    (typing, choosing a file), named by [E]. *)
Record view (S E : Type) : Type := {
  button_disabled : S -> bool;
  on_click : S -> S * task S;
  on_input : E -> S -> S
}.
Arguments button_disabled {S E} v s.
Arguments on_click {S E} v s.
Arguments on_input {S E} v e s.

(** The page while it runs: the view's state, the suspended listeners in
    the order their requests were issued, and every request issued so far. *)
Record page (S : Type) : Type := {
  dom : S;
  inflight : list (request * (outcome jsval -> S -> S * task S));
  sent : list request
}.
Arguments dom {S} p.
Arguments inflight {S} p.
Arguments sent {S} p.

Inductive event (E : Type) : Type :=
| Click
| UserInput (e : E)
| Settle (i : nat) (r : outcome jsval).
Arguments Click {E}.
Arguments UserInput {E} e.
Arguments Settle {E} i r.

Definition pending {S : Type} (t : task S)
  : list (request * (outcome jsval -> S -> S * task S)) :=
  match t with
  | Done => []
  | Await rq k => [(rq, k)]
  end.

Definition issued {S : Type} (t : task S) : list request :=
  match t with
  | Done => []
  | Await rq _ => [rq]
  end.

Fixpoint remove_nth {A : Type} (i : nat) (l : list A) : list A :=
  match i, l with
  | _, [] => []
  | O, _ :: l' => l'
  | S i', x :: l' => x :: remove_nth i' l'
  end.

(** One turn of the event loop. A click reaches the listener only when
    the button is not disabled; [Settle i r] settles the [i]-th request in
    flight with [r] and resumes its listener. *)
Definition step {S E : Type} (v : view S E) (p : page S) (ev : event E) : page S :=
  match ev with
  | Click =>
      if button_disabled v (dom p) then p
      else
        let '(s, t) := on_click v (dom p) in
        {| dom := s; inflight := inflight p ++ pending t; sent := sent p ++ issued t |}
  | UserInput e =>
      {| dom := on_input v e (dom p); inflight := inflight p; sent := sent p |}
  | Settle i r =>
      match nth_error (inflight p) i with
      | None => p
      | Some (_, k) =>
          let '(s, t) := k r (dom p) in
          {| dom := s;
             inflight := remove_nth i (inflight p) ++ pending t;
             sent := sent p ++ issued t |}
      end
  end.

Definition run {S E : Type} (v : view S E) (p : page S) (evs : list (event E)) : page S :=
  List.fold_left (step v) evs p.

(** The page right after the view is initialised. *)
Definition idle {S : Type} (s : S) : page S :=
  {| dom := s; inflight := []; sent := [] |}.

Definition busy {S : Type} (p : page S) : bool :=
  match inflight p with [] => false | _ => true end.

(** The button of [v] serialises its requests: however the user and the
    server behave, at most one request of the view is in flight, and the
    button is disabled exactly while one is. *)
Definition serialized {S E : Type} (v : view S E) : Prop :=
  forall (s : S) (evs : list (event E)),
    button_disabled v s = false ->
    let p := run v (idle s) evs in
    (List.length (inflight p) <= 1)%nat /\ button_disabled v (dom p) = busy p.

End Async.

Export Async.

(** ** JSON.stringify *)

Module Json.

Definition dquote : string := String "034"%char EmptyString.
Definition newline : string := String "010"%char EmptyString.

Definition hex_digit (n : N) : ascii :=
  if (n <? 10)%N then ascii_of_N (48 + n) else ascii_of_N (87 + n).

(** QuoteJSONString on one code unit below U+0100. *)
Definition quote_unit (c : ascii) : string :=
  let n := N_of_ascii c in
  if (n =? 8)%N then "\b"
  else if (n =? 9)%N then "\t"
  else if (n =? 10)%N then "\n"
  else if (n =? 12)%N then "\f"
  else if (n =? 13)%N then "\r"
  else if (n =? 34)%N then "\" ++ dquote
  else if (n =? 92)%N then "\\"
  else if (n <? 32)%N then
    "\u00" ++ String (hex_digit (n / 16)) (String (hex_digit (n mod 16)) EmptyString)
  else String c EmptyString.

Fixpoint quote_units (s : string) : string :=
  match s with
  | EmptyString => EmptyString
  | String c s' => quote_unit c ++ quote_units s'
  end.

Definition quote (s : string) : string := dquote ++ quote_units s ++ dquote.

(** SerializeJSONProperty with the current indentation [indent] and the
    indentation unit [gap]. *)
Fixpoint serialize (gap indent : string) (v : jsval) {struct v} : string :=
  match v with
  | VNull => "null"
  | VBool true => "true"
  | VBool false => "false"
  | VNum z => JsString.of_Z z
  | VStr s => quote s
  | VArr [] => "[]"
  | VArr items =>
      let stepback := indent in
      let indent := indent ++ gap in
      let partial := List.map (serialize gap indent) items in
      if JsString.truthy gap
      then "[" ++ newline ++ indent
               ++ JsString.join ("," ++ newline ++ indent) partial
               ++ newline ++ stepback ++ "]"
      else "[" ++ JsString.join "," partial ++ "]"
  | VObj [] => "{}"
  | VObj props =>
      let stepback := indent in
      let indent := indent ++ gap in
      let member (p : string * jsval) :=
        match p with
        | (k, x) =>
            quote k ++ ":" ++ (if JsString.truthy gap then " " else "")
                    ++ serialize gap indent x
        end in
      let partial := List.map member props in
      if JsString.truthy gap
      then "{" ++ newline ++ indent
               ++ JsString.join ("," ++ newline ++ indent) partial
               ++ newline ++ stepback ++ "}"
      else "{" ++ JsString.join "," partial ++ "}"
  end.

Fixpoint spaces (n : nat) : string :=
  match n with
  | O => EmptyString
  | S n' => String " " (spaces n')
  end.

(** [JSON.stringify(v, null, space)] for a number [space]: the gap is
    [min(10, space)] spaces. *)
Definition stringify (v : jsval) (space : Z) : string :=
  serialize (spaces (Z.to_nat (Z.min 10 space))) EmptyString v.

End Json.

(** ** register.js: the register form *)

Module Register.

(** The form controls and closure of [initRegister]. [preview_src] is the
    file whose blob URL the preview image shows. The [keydown] listeners
    only cancel the default action of Enter and change none of this. *)
Record state : Type := {
  name_value : string;
  email_value : string;
  proxy_value : string;
  salary_value : string;
  image_files : list file;
  preview_src : option file;
  preview_hidden : bool;
  noprev_hidden : bool;
  btn_disabled : bool;
  btn_text : string;
  toasts : list toast
}.

(** The five controls a submission reads. *)
Definition fields (st : state) : string * string * string * string * list file :=
  (name_value st, email_value st, proxy_value st, salary_value st, image_files st).

Definition set_fields (n e p s : string) (fs : list file) (st : state) : state :=
  {| name_value := n; email_value := e; proxy_value := p; salary_value := s;
     image_files := fs;
     preview_src := preview_src st; preview_hidden := preview_hidden st;
     noprev_hidden := noprev_hidden st;
     btn_disabled := btn_disabled st; btn_text := btn_text st; toasts := toasts st |}.

Definition set_preview (src : option file) (ph nh : bool) (st : state) : state :=
  {| name_value := name_value st; email_value := email_value st;
     proxy_value := proxy_value st; salary_value := salary_value st;
     image_files := image_files st;
     preview_src := src; preview_hidden := ph; noprev_hidden := nh;
     btn_disabled := btn_disabled st; btn_text := btn_text st; toasts := toasts st |}.

Definition set_button (d : bool) (t : string) (st : state) : state :=
  {| name_value := name_value st; email_value := email_value st;
     proxy_value := proxy_value st; salary_value := salary_value st;
     image_files := image_files st;
     preview_src := preview_src st; preview_hidden := preview_hidden st;
     noprev_hidden := noprev_hidden st;
     btn_disabled := d; btn_text := t; toasts := toasts st |}.

Definition toast_ (msg type : string) (st : state) : state :=
  {| name_value := name_value st; email_value := email_value st;
     proxy_value := proxy_value st; salary_value := salary_value st;
     image_files := image_files st;
     preview_src := preview_src st; preview_hidden := preview_hidden st;
     noprev_hidden := noprev_hidden st;
     btn_disabled := btn_disabled st; btn_text := btn_text st;
     toasts := pushToast msg type (toasts st) |}.

(** The [change] listener of the file input. *)
Definition image_changed (st : state) : state :=
  match image_files st with
  | [] => set_preview (preview_src st) true false st
  | f :: _ => set_preview (Some f) false true st
  end.

Inductive input : Type :=
| TypeName (s : string)
| TypeEmail (s : string)
| TypeProxy (s : string)
| TypeSalary (s : string)
| ChooseFiles (fs : list file).

Definition on_input (i : input) (st : state) : state :=
  match i with
  | TypeName s => set_fields s (email_value st) (proxy_value st) (salary_value st) (image_files st) st
  | TypeEmail s => set_fields (name_value st) s (proxy_value st) (salary_value st) (image_files st) st
  | TypeProxy s => set_fields (name_value st) (email_value st) s (salary_value st) (image_files st) st
  | TypeSalary s => set_fields (name_value st) (email_value st) (proxy_value st) s (image_files st) st
  | ChooseFiles fs =>
      image_changed
        (set_fields (name_value st) (email_value st) (proxy_value st) (salary_value st) fs st)
  end.

(** [if(el.value) fd.append(key, el.value.trim())]. *)
Definition optional (key value : string) : formdata :=
  if JsString.truthy value then [(key, Text (JsString.trim value))] else [].

Definition form_data (name : string) (f : file) (st : state) : formdata :=
  ([("name", Text name)]
     ++ optional "email" (email_value st)
     ++ optional "proxy" (proxy_value st)
     ++ optional "salary" (salary_value st)
     ++ [("image", Blob f)])%list.

(** [data && data.status === 'success']. *)
Definition is_success (data : jsval) : bool :=
  truthy data &&
  match prop data "status" with
  | Some (VStr s) => String.eqb s "success"
  | _ => false
  end.

(** [data && data.message ? data.message : 'Unknown server response'],
    as the string the concatenation turns it into. *)
Definition failure_message (data : jsval) : string :=
  match (if truthy data then prop data "message" else None) with
  | Some m => if truthy m then ToString m else "Unknown server response"
  | None => "Unknown server response"
  end.

(** The [try]/[catch] around the awaited POST, without the [finally]. *)
Definition settle (r : outcome jsval) (st : state) : state :=
  match r with
  | Ok data =>
      if is_success data
      then
        let st1 := toast_ "Registered successfully" "info" st in
        let st2 := set_fields "" "" "" "" [] st1 in
        set_preview (preview_src st2) true false st2
      else toast_ ("Registration error: " ++ failure_message data) "error" st
  | Throw e => toast_ ("Register failed: " ++ message e) "error" st
  end.

(** The listener from the settlement of the POST to its end. *)
Definition after_post (r : outcome jsval) (st : state) : state :=
  set_button false "Register" (settle r st).

(** The [click] listener of the register button. *)
Definition on_click (st : state) : state * task state :=
  let name := JsString.trim (name_value st) in
  if negb (JsString.truthy name) then (toast_ "Name is required" "error" st, Done)
  else
    match image_files st with
    | [] => (toast_ "Upload a face image" "error" st, Done)
    | f :: _ =>
        let fd := form_data name f st in
        (set_button true "Uploading..." st,
         Await (POST "/register" (Some fd)) (fun r st' => (after_post r st', Done)))
    end.

Definition view : Async.view state input :=
  {| button_disabled := btn_disabled; Async.on_click := on_click; Async.on_input := on_input |}.

End Register.

(** ** register.js: the dashboard *)

Module Dashboard.

(** The mark-attendance button, the result box and the toasts. The health
    line, which no listener of the button reads or writes, is left out. *)
Record state : Type := {
  btn_disabled : bool;
  pre_text : string;
  toasts : list toast
}.

(** What the outer [try]/[catch]/[finally] does with the settled result. *)
Definition finish (r : outcome jsval) (st : state) : state :=
  match r with
  | Ok result =>
      {| btn_disabled := false;
         pre_text := Json.stringify result 2;
         toasts := pushToast "Attendance processed" "info" (toasts st) |}
  | Throw e =>
      {| btn_disabled := false;
         pre_text := message e;
         toasts := pushToast ("Attendance failed: " ++ message e) "error" (toasts st) |}
  end.

(** The [click] listener of the mark-attendance button. *)
Definition on_click (st : state) : state * task state :=
  ({| btn_disabled := true; pre_text := "Processing..."; toasts := toasts st |},
   Await (POST "/mark_attendance" None)
     (fun r st1 =>
        match r with
        | Ok result => (finish (Ok result) st1, Done)
        | Throw _ =>
            (st1, Await (GET "/mark_attendance" None)
                    (fun r2 st2 => (finish r2 st2, Done)))
        end)).

Definition view : Async.view state Empty_set :=
  {| button_disabled := btn_disabled;
     Async.on_click := on_click;
     Async.on_input := fun (e : Empty_set) st => st |}.

End Dashboard.

(** ** attendance.js *)

Module Attendance.

(** The filter controls, the apply button, the table body and the toasts. *)
Record state : Type := {
  filterType_value : string;
  singleDate_value : string;
  startDate_value : string;
  endDate_value : string;
  singleWrap_hidden : bool;
  rangeWrap_hidden : bool;
  apply_disabled : bool;
  tbody_html : string;
  toasts : list toast
}.

Definition set_controls (mode single start stop : string) (st : state) : state :=
  {| filterType_value := mode; singleDate_value := single;
     startDate_value := start; endDate_value := stop;
     singleWrap_hidden := singleWrap_hidden st; rangeWrap_hidden := rangeWrap_hidden st;
     apply_disabled := apply_disabled st;
     tbody_html := tbody_html st; toasts := toasts st |}.

Definition set_wraps (sh rh : bool) (st : state) : state :=
  {| filterType_value := filterType_value st; singleDate_value := singleDate_value st;
     startDate_value := startDate_value st; endDate_value := endDate_value st;
     singleWrap_hidden := sh; rangeWrap_hidden := rh;
     apply_disabled := apply_disabled st;
     tbody_html := tbody_html st; toasts := toasts st |}.

Definition set_tbody (html : string) (st : state) : state :=
  {| filterType_value := filterType_value st; singleDate_value := singleDate_value st;
     startDate_value := startDate_value st; endDate_value := endDate_value st;
     singleWrap_hidden := singleWrap_hidden st; rangeWrap_hidden := rangeWrap_hidden st;
     apply_disabled := apply_disabled st;
     tbody_html := html; toasts := toasts st |}.

Definition toast_ (msg type : string) (st : state) : state :=
  {| filterType_value := filterType_value st; singleDate_value := singleDate_value st;
     startDate_value := startDate_value st; endDate_value := endDate_value st;
     singleWrap_hidden := singleWrap_hidden st; rangeWrap_hidden := rangeWrap_hidden st;
     apply_disabled := apply_disabled st;
     tbody_html := tbody_html st; toasts := pushToast msg type (toasts st) |}.

Definition switchMode (st : state) : state :=
  if String.eqb (filterType_value st) "single"
  then set_wraps false true st
  else set_wraps true false st.

Inductive input : Type :=
| ChooseMode (mode : string)
| TypeSingle (d : string)
| TypeStart (d : string)
| TypeEnd (d : string).

Definition on_input (i : input) (st : state) : state :=
  match i with
  | ChooseMode m =>
      switchMode (set_controls m (singleDate_value st) (startDate_value st) (endDate_value st) st)
  | TypeSingle d =>
      set_controls (filterType_value st) d (startDate_value st) (endDate_value st) st
  | TypeStart d =>
      set_controls (filterType_value st) (singleDate_value st) d (endDate_value st) st
  | TypeEnd d =>
      set_controls (filterType_value st) (singleDate_value st) (startDate_value st) d st
  end.

(** The query [load] builds from the controls. *)
Definition query (st : state) : params :=
  let mode := filterType_value st in
  let p0 := params_set "filter_type" mode [] in
  let p1 :=
    if String.eqb mode "single" && JsString.truthy (singleDate_value st)
    then params_set "date" (singleDate_value st) p0 else p0 in
  if String.eqb mode "range" && JsString.truthy (startDate_value st)
     && JsString.truthy (endDate_value st)
  then params_set "end_date" (endDate_value st)
         (params_set "start_date" (startDate_value st)
            (params_set "filter_type" "range" p1))
  else p1.

Definition td_open : string :=
  "<td class=" ++ Json.dquote ++ "px-4 py-2" ++ Json.dquote ++ ">".

(** The one-cell row the script uses for every message. *)
Definition notice (text : string) : string :=
  "<tr><td class=" ++ Json.dquote ++ "px-4 py-2" ++ Json.dquote
    ++ " colspan=" ++ Json.dquote ++ "3" ++ Json.dquote ++ ">"
    ++ text ++ "</td></tr>".

(** The template of a record's row. *)
Definition row (name timestamp local : string) : string :=
  Json.newline ++ "        <tr>"
    ++ Json.newline ++ "          " ++ td_open ++ name ++ "</td>"
    ++ Json.newline ++ "          " ++ td_open ++ timestamp ++ "</td>"
    ++ Json.newline ++ "          " ++ td_open ++ local ++ "</td>"
    ++ Json.newline ++ "        </tr>"
    ++ Json.newline ++ "      ".

Definition items_of (v : jsval) : list jsval :=
  match v with VArr items => items | _ => [] end.

Section Platform.

(** [new Date(d).toLocaleString()], which depends on the locale and does
    not throw on a decoded value, so that [fmt] is this function. *)
Variable toLocaleString : option jsval -> string.
(** The text of the TypeError for reading a property of [null]. *)
Variable null_read_message : string -> string.

Definition fmt (d : option jsval) : string := toLocaleString d.

(** The callback of [data.map]. *)
Definition render_row (r : jsval) : outcome string :=
  match r with
  | VNull => Throw {| ename := TypeError; message := null_read_message "name" |}
  | _ =>
      Ok (row (ToString_opt (prop r "name"))
              (ToString_opt (prop r "timestamp"))
              (fmt (prop r "timestamp")))
  end.

Fixpoint render_rows (l : list jsval) : outcome (list string) :=
  match l with
  | [] => Ok []
  | r :: l' =>
      match render_row r with
      | Throw e => Throw e
      | Ok h =>
          match render_rows l' with
          | Throw e => Throw e
          | Ok hs => Ok (h :: hs)
          end
      end
  end.

(** The [catch] block of [load]. *)
Definition failed (e : jserror) (st : state) : state :=
  toast_ ("Failed to load attendance: " ++ message e) "error"
    (set_tbody (notice ("Error: " ++ message e)) st).

(** [load] from the settlement of [apiGET(url)] to its end. *)
Definition after_get (r : outcome jsval) (st : state) : state :=
  match r with
  | Throw e => failed e st
  | Ok data =>
      if negb (isArray data) then set_tbody (notice "No data") st
      else if (List.length (items_of data) =? 0)%nat then set_tbody (notice "No records") st
      else
        match render_rows (items_of data) with
        | Ok hs => set_tbody (JsString.join "" hs) st
        | Throw e => failed e st
        end
  end.

(** [load], the [click] listener of the apply button. *)
Definition load (st : state) : state * task state :=
  (set_tbody (notice "Loading...") st,
   Await (GET "/api/attendance" (Some (query st)))
     (fun r st' => (after_get r st', Done))).

Definition view : Async.view state input :=
  {| button_disabled := apply_disabled; Async.on_click := load; Async.on_input := on_input |}.

End Platform.

End Attendance.

(** ** common.js: the toast container through time *)

Module Toaster.

(** The class list [pushToast] gives a toast element. *)
Definition toast_class (type : string) : string :=
  "px-4 py-3 rounded-lg shadow-xl "
    ++ (if String.eqb type "error" then "bg-red-700" else "bg-slate-800/80")
    ++ " text-slate-100".

(** A toast element: [el] tells the elements apart (it stands for the
    object identity of the [div]), [el_toast] is the call that made it. *)
Record element : Type := { el : nat; el_toast : toast; el_class : string }.

(** The module variable [toastContainer] ([None] before the first call),
    with its children first to last; the number of elements made so far;
    and the timers [setTimeout] has scheduled and not yet run. *)
Record toaster : Type := {
  container : option (list element);
  made : nat;
  timers : list (nat * Z)
}.

Definition children (t : toaster) : list element :=
  match container t with
  | Some kids => kids
  | None => []
  end.

(** [pushToast(msg, type, ttl)]. *)
Definition push (msg type : string) (ttl : Z) (t : toaster) : toaster :=
  {| container :=
       Some ({| el := made t;
                el_toast := {| t_msg := msg; t_type := type; t_ttl := ttl |};
                el_class := toast_class type |} :: children t);
     made := S (made t);
     timers := (timers t ++ [(made t, ttl)])%list |}.

(** [div.remove()]: the element leaves the container if it is in it. *)
Definition remove (i : nat) (t : toaster) : toaster :=
  {| container :=
       match container t with
       | Some kids => Some (filter (fun e => negb (Nat.eqb (el e) i)) kids)
       | None => None
       end;
     made := made t;
     timers := timers t |}.

Definition scheduled (i : nat) (t : toaster) : bool :=
  existsb (fun x => Nat.eqb (fst x) i) (timers t).

(** The timer of element [i] runs (once):
    [if(div && div.parentNode) div.remove()]. *)
Definition expire (i : nat) (t : toaster) : toaster :=
  if scheduled i t
  then remove i {| container := container t; made := made t;
                   timers := filter (fun x => negb (Nat.eqb (fst x) i)) (timers t) |}
  else t.

Inductive event : Type :=
| Push (msg type : string) (ttl : Z)
| Dismiss (i : nat)
| Expire (i : nat).

Definition step (t : toaster) (e : event) : toaster :=
  match e with
  | Push msg type ttl => push msg type ttl t
  | Dismiss i => remove i t
  | Expire i => expire i t
  end.

Definition run (t : toaster) (evs : list event) : toaster :=
  List.fold_left step evs t.

(** The module as loaded: no container yet. *)
Definition start : toaster := {| container := None; made := 0; timers := [] |}.

End Toaster.

(** ** common.js: the navigation bar *)

Module Nav.

(** An element with a [data-nav] attribute: the attribute's value and the
    element's class list, a list of distinct tokens. *)
Record button : Type := { nav : string; classList : list string }.

(** [DOMTokenList.toggle(token, force)]. *)
Definition toggle (token : string) (force : bool) (l : list string) : list string :=
  if force
  then if existsb (String.eqb token) l then l else (l ++ [token])%list
  else filter (fun c => negb (String.eqb token c)) l.

(** The body of the [forEach] in [setActiveNav]. *)
Definition restyle (current : string) (b : button) : button :=
  let isActive := String.eqb (nav b) current in
  {| nav := nav b;
     classList :=
       toggle "text-slate-200" (negb isActive)
         (toggle "hover:bg-white/10" (negb isActive)
            (toggle "text-white" isActive
               (toggle "bg-white/10" isActive (classList b)))) |}.

(** [setActiveNav(current)] on the elements [qsa('[data-nav]')] returns. *)
Definition setActiveNav (current : string) (bs : list button) : list button :=
  List.map (restyle current) bs.

End Nav.

(** ** common.js: keyboard shortcuts *)

Module Shortcuts.

(** What [onKey] reads of [e.target]: [tagName] ([None] when the target
    has none, as the document has) and [isContentEditable]. *)
Record target : Type := { tagName : option string; isContentEditable : bool }.

Record keyevent : Type := { ev_target : option target; key : string }.

(** [(t && t.tagName || '').toLowerCase()]. *)
Definition tag_of (t : option target) : string :=
  JsString.toLowerCase
    (match t with
     | Some x => or_empty (tagName x)
     | None => EmptyString
     end).

Definition isEdit (t : option target) : bool :=
  let tag := tag_of t in
  String.eqb tag "input" || String.eqb tag "textarea" || String.eqb tag "select"
  || match t with Some x => isContentEditable x | None => false end.

Section Handlers.

(** What the shortcut callbacks act on. A shortcut map gives, for a key,
    the callback stored under it, if any. The callbacks do not add or
    remove key listeners. *)
Variable W : Type.

Definition shortcuts : Type := string -> option (W -> W).

(** [onKey(e)] for the map [map]. *)
Definition onKey (map : shortcuts) (e : keyevent) (w : W) : W :=
  if isEdit (ev_target e) then w
  else
    match map (key e) with
    | Some callback => callback w
    | None => w
    end.

(** The [keydown] listeners of the window that [initShortcuts] added, in
    the order they were added, each with the number that tells it apart;
    the count of listeners added so far; and what the callbacks act on. *)
Record window : Type := {
  listeners : list (nat * shortcuts);
  added : nat;
  world : W
}.

(** [initShortcuts(map)]: the window with the new listener, and the number
    the returned disposer removes. *)
Definition initShortcuts (map : shortcuts) (win : window) : window * nat :=
  ({| listeners := (listeners win ++ [(added win, map)])%list;
      added := S (added win);
      world := world win |},
   added win).

(** The function [initShortcuts] returns. *)
Definition dispose (i : nat) (win : window) : window :=
  {| listeners := filter (fun x => negb (Nat.eqb (fst x) i)) (listeners win);
     added := added win;
     world := world win |}.

(** A [keydown] event on the window. *)
Definition keydown (e : keyevent) (win : window) : window :=
  {| listeners := listeners win;
     added := added win;
     world := List.fold_left (fun w x => onKey (snd x) e w) (listeners win) (world win) |}.

End Handlers.

End Shortcuts.

(** ** Notions the properties are stated with *)

(** [URLSearchParams.prototype.get]: the first value stored under [k]. *)
Fixpoint params_get (k : string) (ps : params) : option string :=
  match ps with
  | [] => None
  | (k', v) :: rest => if String.eqb k k' then Some v else params_get k rest
  end.

(** The first and the last code unit of a string. *)
Definition first_unit (s : string) : option ascii :=
  match s with
  | EmptyString => None
  | String c _ => Some c
  end.

Fixpoint last_unit (s : string) : option ascii :=
  match s with
  | EmptyString => None
  | String c EmptyString => Some c
  | String _ s' => last_unit s'
  end.


(** The inputs shown match the selected mode. *)
Definition wraps_match (st : Attendance.state) : Prop :=
  Attendance.singleWrap_hidden st
  = negb (String.eqb (Attendance.filterType_value st) "single")
  /\ Attendance.rangeWrap_hidden st = String.eqb (Attendance.filterType_value st) "single".

(** [FormData.prototype.get]: the first value appended under [k]. *)
Fixpoint form_get (k : string) (fd : formdata) : option formvalue :=
  match fd with
  | [] => None
  | (k', v) :: rest => if String.eqb k k' then Some v else form_get k rest
  end.

(** The continuation of the register listener. *)
Definition after_register : outcome jsval -> Register.state -> Register.state * task Register.state :=
  fun r st' => (Register.after_post r st', Done).

(** The register button with its label: idle, enabled and reading
    "Register", or waiting on its POST, disabled and reading
    "Uploading...". *)
Definition register_label_inv (p : page Register.state) : Prop :=
  (inflight p = [] /\ Register.btn_disabled (dom p) = false
   /\ Register.btn_text (dom p) = "Register")
  \/ (exists rq,
        inflight p = [(rq, after_register)]
        /\ Register.btn_disabled (dom p) = true
        /\ Register.btn_text (dom p) = "Uploading...").

(** Exactly one of the preview image and its placeholder is hidden, and
    every suspended listener is the register listener. *)
Definition register_preview_inv (p : page Register.state) : Prop :=
  Register.preview_hidden (dom p) = negb (Register.noprev_hidden (dom p))
  /\ Forall (fun x => snd x = after_register) (inflight p).

(** What holds of the toast container at all times: its elements are told
    apart by [el], each was made before now, and each still has its timer
    pending. *)
Definition toaster_inv (t : Toaster.toaster) : Prop :=
  NoDup (List.map Toaster.el (Toaster.children t))
  /\ Forall (fun e => (Toaster.el e < Toaster.made t)%nat) (Toaster.children t)
  /\ Forall (fun e => Toaster.scheduled (Toaster.el e) t = true) (Toaster.children t).

(** A call [pushToast(msg, type, ttl)] as an event, and the toast it makes. *)
Definition push_event (c : string * string * Z) : Toaster.event :=
  match c with (msg, type, ttl) => Toaster.Push msg type ttl end.

Definition toast_of_call (c : string * string * Z) : toast :=
  match c with (msg, type, ttl) => {| t_msg := msg; t_type := type; t_ttl := ttl |} end.

(** The four classes [setActiveNav] manages. *)
Definition nav_classes : list string :=
  ["bg-white/10"; "text-white"; "hover:bg-white/10"; "text-slate-200"].


(** What it means for [t] to be a substring of [s]. *)
Definition substring_of (t s : string) : Prop :=
  exists a b, s = (a ++ t ++ b)%string.

(** Every code unit of the string is white space. *)
Fixpoint all_space (s : string) : bool :=
  match s with
  | EmptyString => true
  | String c s' => JsString.is_space c && all_space s'
  end.

(** A field that may be absent, read as the empty string when it is. *)
Definition or_absent (x : option string) : string :=
  match x with Some s => s | None => "" end.

Section UsersVocabulary.
Import Users.

(** The value [u[k]] of the selected column. *)
Definition field (k : sortkey) (u : user) : Z + string :=
  match k with
  | K_user_id => inl (user_id u)
  | K_name => inr (name u)
  end.

(** [x < y] on two values of one column. *)
Definition field_lt (x y : Z + string) : Prop :=
  match x, y with
  | inl a, inl b => a < b
  | inr s, inr t => String.compare s t = Lt
  | _, _ => False
  end.

Definition same_field (k : sortkey) (a u : user) : bool :=
  match k with
  | K_user_id => user_id a =? user_id u
  | K_name => String.eqb (name a) (name u)
  end.

Definition toggled (d : direction) : direction :=
  match d with asc => desc | desc => asc end.

(** The spec's example: thirteen users and no search term. *)
Definition thirteen : list user :=
  List.map (fun i => {| user_id := Z.of_nat i; name := "u"; email := None;
                        proxy := None; salary := None |})
           (List.seq 1 13).

Definition neil : user :=
  {| user_id := 7; name := "Neil Borikar"; email := Some "neil@office.example";
     proxy := None; salary := None |}.

End UsersVocabulary.

(** The settled POST reports success: it resolved with a body whose
    [status] property is the string ['success']. *)
Definition reports_success (r : outcome jsval) : Prop :=
  exists data, r = Ok data /\ prop data "status" = Some (VStr "success").

(** The five controls of a cleared form. *)
Definition cleared : string * string * string * string * list file :=
  ("", "", "", "", []).

(** The error [apiGET] builds from a response: an [Error] whose message is
    the status, a space and the status text. *)
Definition http_error (res : response) : jserror :=
  {| ename := Error;
     message := (JsString.of_Z (status res) ++ " " ++ statusText res)%string |}.

Definition mark_post : request := POST "/mark_attendance" None.
Definition mark_get : request := GET "/mark_attendance" None.

Section RegisterVocabulary.
Import Register.

(** Either nothing is in flight and the button is enabled, or the one
    POST of the last click is in flight and the button is disabled. *)
Definition register_inv (p : page state) : Prop :=
  (inflight p = [] /\ btn_disabled (dom p) = false)
  \/ (exists rq,
        inflight p = [(rq, fun r st' => (after_post r st', Done))]
        /\ btn_disabled (dom p) = true).

End RegisterVocabulary.

Section DashboardVocabulary.
Import Dashboard.

(** The two continuations of the mark-attendance listener. *)
Definition after_mark_get : outcome jsval -> state -> state * task state :=
  fun r2 st2 => (finish r2 st2, Done).

Definition after_mark_post : outcome jsval -> state -> state * task state :=
  fun r st1 =>
    match r with
    | Ok result => (finish (Ok result) st1, Done)
    | Throw _ => (st1, Await (GET "/mark_attendance" None) after_mark_get)
    end.

(** Nothing in flight and the button enabled, or the POST or else the GET
    of the last click in flight and the button disabled. *)
Definition dashboard_inv (p : page state) : Prop :=
  (inflight p = [] /\ btn_disabled (dom p) = false)
  \/ (exists rq k,
        inflight p = [(rq, k)] /\ (k = after_mark_post \/ k = after_mark_get)
        /\ btn_disabled (dom p) = true).

End DashboardVocabulary.

(** The dashboard while a request of the button is in flight shows
    "Processing...". *)
Definition dashboard_processing_inv (p : page Dashboard.state) : Prop :=
  (inflight p = [] /\ Dashboard.btn_disabled (dom p) = false)
  \/ (exists rq k,
        inflight p = [(rq, k)] /\ (k = after_mark_post \/ k = after_mark_get)
        /\ Dashboard.btn_disabled (dom p) = true
        /\ Dashboard.pre_text (dom p) = "Processing...").

(** *** Sample pages and data *)

Definition face : file := {| file_name := "face.png" |}.

(** A register form filled in with a padded name and an image. *)
Definition filled : Register.state :=
  {| Register.name_value := "  Neil "; Register.email_value := " n@office.example";
     Register.proxy_value := ""; Register.salary_value := "100";
     Register.image_files := [face]; Register.preview_src := Some face;
     Register.preview_hidden := false; Register.noprev_hidden := true;
     Register.btn_disabled := false; Register.btn_text := "Register";
     Register.toasts := [] |}.

(** The same form with a blank name and no image. *)
Definition blank : Register.state :=
  {| Register.name_value := "   "; Register.email_value := "";
     Register.proxy_value := ""; Register.salary_value := "";
     Register.image_files := []; Register.preview_src := None;
     Register.preview_hidden := true; Register.noprev_hidden := false;
     Register.btn_disabled := false; Register.btn_text := "Register";
     Register.toasts := [] |}.

(** The form with a name and no image. *)
Definition no_image : Register.state :=
  Register.set_fields "Neil" "" "" "" [] blank.

Definition dashboard0 : Dashboard.state :=
  {| Dashboard.btn_disabled := false; Dashboard.pre_text := ""; Dashboard.toasts := [] |}.

Definition attendance0 : Attendance.state :=
  {| Attendance.filterType_value := "range"; Attendance.singleDate_value := "";
     Attendance.startDate_value := "2024-01-01"; Attendance.endDate_value := "2024-01-31";
     Attendance.singleWrap_hidden := true; Attendance.rangeWrap_hidden := false;
     Attendance.apply_disabled := false; Attendance.tbody_html := "";
     Attendance.toasts := [] |}.

(** The attendance view on a platform whose locale format is the identity
    on strings. *)
Definition attendance_view0 : view Attendance.state Attendance.input :=
  Attendance.view (fun d => ToString_opt d) (fun k => ("null has no " ++ k)%string).

Definition not_found : response :=
  {| status := 404; statusText := "Not Found"; content_type := None;
     content := Readable "user exists" |}.

Definition success_body : jsval := VObj [("status", VStr "success")].

(* ===================================================================== *)
(** * Part II. Properties *)
(* ===================================================================== *)

(** ** Strings *)

Section StringFacts.



(** [String.prefix t s] says that [s] starts with [t]. *)
Lemma prefix_starts (t s : string) :
  String.prefix t s = true <-> exists b, s = (t ++ b)%string.
Proof.
  revert s; induction t as [|c t IH]; intros s.
  - destruct s; simpl; split; eauto.
  - destruct s as [|d s]; simpl.
    + split; [discriminate | intros [b Hb]; discriminate].
    + destruct (ascii_dec c d) as [->|Hne].
      * rewrite IH. split; intros [b Hb]; exists b; congruence.
      * split; [discriminate | intros [b Hb]; congruence].
Qed.

Lemma includes_substring (s t : string) :
  JsString.includes s t = true <-> substring_of t s.
Proof.
  unfold substring_of. induction s as [|c s IH].
  - change (JsString.includes "" t) with (String.prefix t "" || false).
    rewrite orb_false_r, prefix_starts. split.
    + intros [b Hb]. now exists "", b.
    + intros [a [b Hab]]. destruct a; [now exists b | discriminate].
  - change (JsString.includes (String c s) t)
      with (String.prefix t (String c s) || JsString.includes s t).
    rewrite orb_true_iff, prefix_starts, IH. split.
    + intros [[b Hb] | [a [b Hab]]].
      * now exists "", b.
      * exists (String c a), b. simpl. now rewrite Hab.
    + intros [a [b Hab]]. destruct a as [|d a]; simpl in Hab.
      * left. now exists b.
      * right. exists a, b. congruence.
Qed.

Lemma includes_empty (s : string) : JsString.includes s "" = true.
Proof. apply includes_substring. exists "", s. reflexivity. Qed.

Lemma truthy_empty (s : string) : JsString.truthy s = false <-> s = "".
Proof. destruct s; simpl; split; congruence. Qed.

Lemma or_empty_some (s : string) : or_empty (Some s) = s.
Proof. destruct s; reflexivity. Qed.

Lemma lower_unit_idem (c : ascii) :
  JsString.lower_unit (JsString.lower_unit c) = JsString.lower_unit c.
Proof.
  destruct c as [[] [] [] [] [] [] [] []]; reflexivity.
Qed.

Lemma toLowerCase_idem (s : string) :
  JsString.toLowerCase (JsString.toLowerCase s) = JsString.toLowerCase s.
Proof. induction s as [|c s IH]; simpl; [reflexivity | now rewrite lower_unit_idem, IH]. Qed.


(** The order of strings is a strict total order. *)
Lemma compare_lt_trans (a b c : string) :
  String.compare a b = Lt -> String.compare b c = Lt -> String.compare a c = Lt.
Proof.
  revert b c; induction a as [|x a IH]; intros [|y b] [|z c]; simpl;
    try congruence.
  unfold Ascii.compare.
  destruct (N.compare_spec (N_of_ascii x) (N_of_ascii y)) as [Hxy|Hxy|Hxy];
    destruct (N.compare_spec (N_of_ascii y) (N_of_ascii z)) as [Hyz|Hyz|Hyz];
    destruct (N.compare_spec (N_of_ascii x) (N_of_ascii z)) as [Hxz|Hxz|Hxz];
    try congruence; try lia.
  apply IH.
Qed.

Lemma compare_refl (a : string) : String.compare a a = Eq.
Proof.
  induction a as [|x a IH]; simpl; [reflexivity|].
  unfold Ascii.compare. now rewrite N.compare_refl.
Qed.

Lemma lt_irrefl (a : string) : JsString.lt a a = false.
Proof. unfold JsString.lt, String.ltb. now rewrite compare_refl. Qed.

Lemma lt_asym (a b : string) : JsString.lt a b = true -> JsString.lt b a = false.
Proof.
  unfold JsString.lt, String.ltb. rewrite (String.compare_antisym b a).
  destruct (String.compare a b); simpl; congruence.
Qed.

Lemma lt_total (a b : string) :
  JsString.lt a b = false -> JsString.lt b a = false -> a = b.
Proof.
  unfold JsString.lt, String.ltb. rewrite (String.compare_antisym b a).
  destruct (String.compare a b) eqn:E; simpl; try congruence.
  intros _ _. now apply String.compare_eq_iff.
Qed.

Lemma lt_trans (a b c : string) :
  JsString.lt a b = true -> JsString.lt b c = true -> JsString.lt a c = true.
Proof.
  unfold JsString.lt, String.ltb.
  destruct (String.compare a b) eqn:E1; try discriminate.
  destruct (String.compare b c) eqn:E2; try discriminate.
  intros _ _. now rewrite (compare_lt_trans _ _ _ E1 E2).
Qed.

(** [b < a] is false, [c < b] is false, hence [c < a] is false. *)
Lemma not_lt_trans (a b c : string) :
  JsString.lt b a = false -> JsString.lt c b = false -> JsString.lt c a = false.
Proof.
  intros Hba Hcb.
  destruct (JsString.lt c a) eqn:Hca; [|reflexivity].
  destruct (JsString.lt a b) eqn:Hab.
  - now rewrite (lt_trans _ _ _ Hca Hab) in Hcb.
  - rewrite (lt_total _ _ Hab Hba) in Hca. congruence.
Qed.

End StringFacts.

(** ** Sorting *)

Section SortFacts.
Context {A : Type}.
Variable c : A -> A -> Z.

Lemma insert_perm (x : A) (l : list A) : Permutation (JsArray.insert c x l) (x :: l).
Proof.
  induction l as [|y l IH]; simpl; [reflexivity|].
  destruct (c x y <=? 0); [reflexivity|].
  rewrite IH. apply perm_swap.
Qed.

Lemma sort_perm (l : list A) : Permutation (JsArray.sort c l) l.
Proof.
  induction l as [|x l IH]; simpl; [reflexivity|].
  rewrite insert_perm. now constructor.
Qed.

Lemma sort_length (l : list A) : List.length (JsArray.sort c l) = List.length l.
Proof. apply Permutation_length, sort_perm. Qed.

(** An element class whose members never compare above one another is
    left in its original order. *)
Section Stable.
Variable P : A -> bool.
Hypothesis P_flat : forall x y, P x = true -> P y = true -> c x y <= 0.

Lemma filter_insert (x : A) (l : list A) :
  filter P (JsArray.insert c x l) = filter P (x :: l).
Proof.
  induction l as [|y l IH]; [reflexivity|].
  cbn [JsArray.insert]. destruct (Z.leb_spec (c x y) 0) as [Hle|Hgt]; [reflexivity|].
  cbn [filter] in *. rewrite IH.
  destruct (P x) eqn:Px, (P y) eqn:Py; try reflexivity.
  specialize (P_flat x y Px Py). lia.
Qed.

Lemma filter_sort (l : list A) : filter P (JsArray.sort c l) = filter P l.
Proof.
  induction l as [|x l IH]; [reflexivity|].
  cbn [JsArray.sort]. rewrite filter_insert. cbn [filter]. now rewrite IH.
Qed.
End Stable.

(** With a comparator that is a total preorder the result is ordered. *)
Section Ordered.
Hypothesis c_rev : forall x y, 0 < c x y -> c y x <= 0.
Hypothesis c_trans : forall x y z, c x y <= 0 -> c y z <= 0 -> c x z <= 0.

Let le (x y : A) : Prop := c x y <= 0.

Lemma insert_sorted (x : A) (l : list A) :
  StronglySorted le l -> StronglySorted le (JsArray.insert c x l).
Proof.
  induction 1 as [|y l Hs IH Hall]; cbn [JsArray.insert].
  - repeat constructor.
  - destruct (Z.leb_spec (c x y) 0) as [Hle|Hgt].
    + constructor; [now constructor|].
      constructor; [exact Hle|].
      eapply Forall_impl; [|exact Hall].
      intros z Hz. exact (c_trans _ _ _ Hle Hz).
    + constructor; [exact IH|].
      eapply Permutation_Forall; [symmetry; apply insert_perm|].
      constructor; [now apply c_rev | exact Hall].
Qed.

Lemma sort_sorted (l : list A) : StronglySorted le (JsArray.sort c l).
Proof.
  induction l as [|x l IH]; cbn [JsArray.sort]; [constructor|].
  now apply insert_sorted.
Qed.
End Ordered.

(** A stable ordered arrangement is unique, so the result of the sort does
    not depend on the algorithm an engine uses. *)
Section Determined.
Variable eqv : A -> A -> bool.
Hypothesis eqv_refl : forall x, eqv x x = true.
Hypothesis eqv_of_le : forall x y, c x y <= 0 -> c y x <= 0 -> eqv x y = true.
Hypothesis c_refl : forall x, c x x <= 0.

Let le (x y : A) : Prop := c x y <= 0.

Lemma head_le (x y : A) (l l' : list A) :
  StronglySorted le (y :: l') ->
  filter (eqv x) (x :: l) = filter (eqv x) (y :: l') ->
  c y x <= 0.
Proof.
  intros Hs Hf.
  assert (Hin : In x (y :: l')).
  { assert (H : In x (filter (eqv x) (y :: l'))).
    { rewrite <- Hf. cbn [filter]. rewrite eqv_refl. now left. }
    now apply filter_In in H. }
  destruct Hin as [<- | Hin]; [apply c_refl|].
  apply StronglySorted_inv in Hs. destruct Hs as [_ Hall].
  rewrite Forall_forall in Hall. exact (Hall x Hin).
Qed.

Lemma stable_sorted_unique (l1 : list A) :
  forall l2,
    StronglySorted le l1 -> StronglySorted le l2 ->
    (forall a, filter (eqv a) l1 = filter (eqv a) l2) ->
    l1 = l2.
Proof.
  induction l1 as [|x l1 IH]; intros [|y l2] H1 H2 Hf; [reflexivity | | |].
  - specialize (Hf y). cbn [filter] in Hf. rewrite eqv_refl in Hf. discriminate.
  - specialize (Hf x). cbn [filter] in Hf. rewrite eqv_refl in Hf. discriminate.
  - assert (Hyx : c y x <= 0) by exact (head_le x y l1 l2 H2 (Hf x)).
    assert (Hxy : c x y <= 0) by exact (head_le y x l2 l1 H1 (eq_sym (Hf y))).
    assert (Exy : x = y).
    { pose proof (Hf x) as Hx. cbn [filter] in Hx.
      rewrite eqv_refl, (eqv_of_le x y Hxy Hyx) in Hx. now injection Hx. }
    subst y. f_equal. apply IH.
    + now apply StronglySorted_inv in H1.
    + now apply StronglySorted_inv in H2.
    + intros a. specialize (Hf a). cbn [filter] in Hf.
      destruct (eqv a x); [now injection Hf | exact Hf].
Qed.
End Determined.

End SortFacts.

(** ** Ceiling *)

Lemma ceil_div_bounds (a b : Z) :
  0 < b -> b * (ceil_div a b - 1) < a <= b * ceil_div a b.
Proof.
  intros Hb. unfold ceil_div.
  pose proof (Z.div_mod (- a) b ltac:(lia)) as Hdm.
  pose proof (Z.mod_pos_bound (- a) b Hb) as Hm.
  nia.
Qed.

(** The bounds determine the ceiling. *)
Lemma ceil_div_unique (a b c : Z) :
  0 < b -> b * (c - 1) < a <= b * c -> c = ceil_div a b.
Proof.
  intros Hb Hc. pose proof (ceil_div_bounds a b Hb). nia.
Qed.

(** ** The users view *)

Section UsersFacts.
Import Users.

(** *** Pagination *)

Lemma pages_of_pos (n : nat) : 1 <= pages_of n.
Proof. unfold pages_of. lia. Qed.

Lemma clamp_page_range (pages p : Z) :
  1 <= pages -> 1 <= clamp_page pages p <= pages.
Proof. unfold clamp_page. lia. Qed.

Lemma render_page (st : state) :
  page (render st) = clamp_page (pages_of (List.length (filtered (render st)))) (page st).
Proof. reflexivity. Qed.

(** Every listener ends with a call of [render]. *)
Lemma handle_renders (st : state) (e : event) : exists st0, handle st e = render st0.
Proof.
  destruct e as [[[us|]|err]| | | |]; cbn [handle loaded input click_header click_prev click_next];
    eexists; reflexivity.
Qed.

Example thirteen_users_two_pages :
  let st := loaded (Ok (Some thirteen)) (init "" "" "" false false) in
  pageInfo_text st = "Page 1 / 2" /\ List.length (rows st) = 12%nat /\
  pageInfo_text (click_next st) = "Page 2 / 2" /\ List.length (rows (click_next st)) = 1%nat /\
  page (click_next (click_next st)) = 2 /\
  count_text st = "13 results".
Proof. vm_compute. repeat split. Qed.

(** *** Search *)

Lemma or_empty_absent (x : option string) : or_empty x = or_absent x.
Proof. destruct x as [[|]|]; reflexivity. Qed.

Lemma keep_includes (q : string) (u : user) :
  keep q u = JsString.includes (JsString.toLowerCase (haystack u)) (JsString.toLowerCase q).
Proof.
  unfold keep. rewrite or_empty_some.
  destruct (JsString.toLowerCase q) eqn:E; simpl negb; cbv iota.
  - now rewrite includes_empty.
  - reflexivity.
Qed.

(** *** Sorting *)

Lemma lt_at_field (k : sortkey) (a b : user) :
  lt_at k a b = true <-> field_lt (field k a) (field k b).
Proof.
  destruct k; simpl.
  - apply Z.ltb_lt.
  - unfold JsString.lt, String.ltb. destruct (String.compare (name a) (name b)); split; congruence.
Qed.

Lemma lt_at_asym (k : sortkey) (a b : user) : lt_at k a b = true -> lt_at k b a = false.
Proof. destruct k; simpl; [lia | apply lt_asym]. Qed.

Lemma lt_at_total (k : sortkey) (a b : user) :
  lt_at k a b = false -> lt_at k b a = false -> field k a = field k b.
Proof.
  destruct k; simpl; intros H1 H2.
  - f_equal. lia.
  - f_equal. now apply lt_total.
Qed.

Lemma lt_at_irrefl (k : sortkey) (a b : user) : field k a = field k b -> lt_at k a b = false.
Proof.
  destruct k; simpl; intros H; inversion H as [H'].
  - lia.
  - apply lt_irrefl.
Qed.

Lemma lt_at_not_trans (k : sortkey) (a b c : user) :
  lt_at k b a = false -> lt_at k c b = false -> lt_at k c a = false.
Proof. destruct k; simpl; [lia | apply not_lt_trans]. Qed.

Lemma same_field_eq (k : sortkey) (a u : user) :
  same_field k a u = true <-> field k a = field k u.
Proof.
  destruct k; simpl.
  - rewrite Z.eqb_eq. split; congruence.
  - rewrite String.eqb_eq. split; congruence.
Qed.

(** [cmp] puts [a] at or before [b]: in ascending order when [b[k] < a[k]]
    is false, in descending order when [a[k] < b[k]] is false. *)
Lemma cmp_le (d : direction) (a b : user) (k : sortkey) :
  cmp d a b k <= 0 <->
  match d with asc => lt_at k b a = false | desc => lt_at k a b = false end.
Proof.
  unfold cmp. destruct d.
  - destruct (lt_at k a b) eqn:Hab.
    + rewrite (lt_at_asym _ _ _ Hab). split; [reflexivity | lia].
    + destruct (lt_at k b a); split; try reflexivity; try lia; discriminate.
  - destruct (lt_at k a b) eqn:Hab.
    + split; [lia | discriminate].
    + destruct (lt_at k b a); split; try reflexivity; lia.
Qed.

Lemma cmp_zero (d : direction) (a b : user) (k : sortkey) :
  cmp d a b k = 0 <-> field k a = field k b.
Proof.
  unfold cmp. split.
  - destruct (lt_at k a b) eqn:Hab; [destruct d; lia|].
    destruct (lt_at k b a) eqn:Hba; [destruct d; lia|].
    intros _. now apply lt_at_total.
  - intros H. rewrite (lt_at_irrefl _ _ _ H), (lt_at_irrefl k b a (eq_sym H)). reflexivity.
Qed.

Lemma cmp_neg (d : direction) (a b : user) (k : sortkey) :
  cmp d a b k < 0 <->
  match d with
  | asc => field_lt (field k a) (field k b)
  | desc => field_lt (field k b) (field k a)
  end.
Proof.
  unfold cmp. destruct d.
  - rewrite <- lt_at_field. destruct (lt_at k a b) eqn:Hab.
    + split; [reflexivity | lia].
    + destruct (lt_at k b a); split; try lia; discriminate.
  - rewrite <- lt_at_field. destruct (lt_at k a b) eqn:Hab.
    + rewrite (lt_at_asym _ _ _ Hab). split; [lia | discriminate].
    + destruct (lt_at k b a); split; try lia; try reflexivity; discriminate.
Qed.

Lemma cmp_rev (d : direction) (k : sortkey) (x y : user) :
  0 < cmp d x y k -> cmp d y x k <= 0.
Proof.
  intros H. apply cmp_le.
  assert (Hn : ~ cmp d x y k <= 0) by lia.
  rewrite cmp_le in Hn. destruct d.
  - destruct (lt_at k y x) eqn:E; [now apply lt_at_asym | congruence].
  - destruct (lt_at k x y) eqn:E; [now apply lt_at_asym | congruence].
Qed.

Lemma cmp_trans (d : direction) (k : sortkey) (x y z : user) :
  cmp d x y k <= 0 -> cmp d y z k <= 0 -> cmp d x z k <= 0.
Proof.
  rewrite !cmp_le. destruct d; intros H1 H2.
  - exact (lt_at_not_trans k x y z H1 H2).
  - exact (lt_at_not_trans k z y x H2 H1).
Qed.

Lemma render_filtered (st : state) :
  filtered (render st) =
  JsArray.sort (fun a b => cmp (sortDir st) a b (sortKey st))
    (filter (keep (q_value st)) (users st)).
Proof. reflexivity. Qed.

Lemma render_stable (st : state) (a : user) :
  filter (same_field (sortKey st) a) (filtered (render st))
  = filter (same_field (sortKey st) a) (filter (keep (q_value st)) (users st)).
Proof.
  rewrite render_filtered. apply filter_sort. intros x y Hx Hy.
  apply same_field_eq in Hx, Hy. apply Z.eq_le_incl, cmp_zero. congruence.
Qed.

Lemma render_sorted (st : state) :
  StronglySorted (fun a b => cmp (sortDir st) a b (sortKey st) <= 0) (filtered (render st)).
Proof.
  rewrite render_filtered. apply sort_sorted; intros *; [apply cmp_rev | apply cmp_trans].
Qed.

(** The list shown is the only arrangement of the kept records that is in
    comparator order and leaves records of equal value in their original
    order: any engine's stable sort produces it. *)
Lemma render_order_determined (st : state) (l : list user) :
  StronglySorted (fun a b => cmp (sortDir st) a b (sortKey st) <= 0) l ->
  (forall a, filter (same_field (sortKey st) a) l
             = filter (same_field (sortKey st) a) (filter (keep (q_value st)) (users st))) ->
  l = filtered (render st).
Proof.
  intros Hs Hf.
  apply (stable_sorted_unique (fun a b => cmp (sortDir st) a b (sortKey st))
           (same_field (sortKey st))).
  - intros x. now apply same_field_eq.
  - intros x y Hxy Hyx. apply same_field_eq.
    apply cmp_le in Hxy, Hyx. destruct (sortDir st); now apply lt_at_total.
  - intros x. apply Z.eq_le_incl, cmp_zero. reflexivity.
  - exact Hs.
  - apply render_sorted.
  - intros a. now rewrite Hf, render_stable.
Qed.

End UsersFacts.

Section UsersClaims.
Import Users.

(** C1. After every render of the users view, whatever the filtered list
    and whatever the page value before it, the page index is its clamped
    value and lies between 1 and [max(1, ceil(filteredCount / 12))]; this
    holds after each listener (load, search input, header click, prev,
    next), since each ends with a render. The last part pins [ceil_div]
    down as the ceiling of the quotient by the page size 12. *)
Theorem users_page_clamped :
  forall (st : state) (e : event),
    let bound (s : state) :=
      Z.max 1 (ceil_div (Z.of_nat (List.length (filtered s))) 12) in
    page (render st) = Z.min (bound (render st)) (Z.max 1 (page st))
    /\ 1 <= page (render st) <= bound (render st)
    /\ 1 <= page (handle st e) <= bound (handle st e)
    /\ (forall n : nat,
           12 * (ceil_div (Z.of_nat n) 12 - 1) < Z.of_nat n <= 12 * ceil_div (Z.of_nat n) 12).
Proof.
  intros st e bound.
  assert (Hr : forall s, 1 <= page (render s) <= bound (render s)).
  { intros s. rewrite render_page. apply clamp_page_range, pages_of_pos. }
  split; [reflexivity|]. split; [apply Hr|]. split.
  - destruct (handle_renders st e) as [st0 ->]. apply Hr.
  - intros n. apply ceil_div_bounds. lia.
Qed.

(** C2. The search filter keeps a record exactly when the lowercased
    search string is a substring of the lowercased concatenation of the
    record's user_id, name, email and proxy (an absent email or proxy
    counting as empty). Hence the match ignores letter case on both
    sides, the empty search string keeps every record, and the rendered
    list holds exactly the kept records. *)
Theorem users_search_filter :
  forall (q : string) (u : user),
    (keep q u = true <->
     substring_of (JsString.toLowerCase q)
       (JsString.toLowerCase
          (JsString.of_Z (user_id u) ++ name u
             ++ or_absent (email u) ++ or_absent (proxy u))))
    /\ (forall (q' : string) (u' : user),
           JsString.toLowerCase q' = JsString.toLowerCase q ->
           JsString.toLowerCase (haystack u') = JsString.toLowerCase (haystack u) ->
           keep q' u' = keep q u)
    /\ keep "" u = true
    /\ (forall st : state,
           In u (filtered (render st)) <-> In u (users st) /\ keep (q_value st) u = true).
Proof.
  intros q u. repeat split.
  - rewrite keep_includes, includes_substring. unfold haystack.
    now rewrite !or_empty_absent.
  - rewrite keep_includes, includes_substring. unfold haystack.
    now rewrite !or_empty_absent.
  - intros q' u' Hq Hu. rewrite !keep_includes. now rewrite Hq, Hu.
  - rewrite render_filtered in H.
    apply (Permutation_in _ (sort_perm _ _)) in H. now apply filter_In in H.
  - rewrite render_filtered in H.
    apply (Permutation_in _ (sort_perm _ _)) in H. now apply filter_In in H.
  - intros [Hin Hk]. rewrite render_filtered.
    apply (Permutation_in _ (Permutation_sym (sort_perm _ _))).
    apply filter_In. now split.
Qed.

Lemma users_search_filter_witness :
  keep "BORIKAR" neil = keep "borikar" neil
  /\ keep "OFFICE" neil = true.
Proof.
  split.
  - apply (proj1 (proj2 (users_search_filter "borikar" neil))); reflexivity.
  - apply (proj1 (users_search_filter "OFFICE" neil)).
    exists "7neil borikarneil@", ".example". reflexivity.
Defined.

(** C3. A click on the header of the active sort column flips the
    direction and keeps the key; a click on another header selects that
    column, ascending. The comparator orders by the selected column
    (negative exactly when the first record's value comes first in the
    chosen direction, zero exactly on equal values), and the list shown
    after the click is the kept records rearranged, in comparator order,
    with records of equal value in their original relative order; it is
    the only such arrangement. *)
Theorem users_sort_toggle_stable :
  forall (st : state) (k : sortkey),
    let st' := click_header k st in
    let kept := filter (keep (q_value st')) (users st') in
    (sortKey st = k -> sortKey st' = sortKey st /\ sortDir st' = toggled (sortDir st))
    /\ (sortKey st <> k -> sortKey st' = k /\ sortDir st' = asc)
    /\ (forall a b : user,
           (cmp asc a b k < 0 <-> field_lt (field k a) (field k b))
           /\ (cmp desc a b k < 0 <-> field_lt (field k b) (field k a))
           /\ (forall d, cmp d a b k = 0 <-> field k a = field k b)
           /\ (forall d, cmp d b a k = - cmp d a b k))
    /\ Permutation (filtered st') kept
    /\ StronglySorted (fun a b => cmp (sortDir st') a b (sortKey st') <= 0) (filtered st')
    /\ (forall a : user,
           filter (same_field (sortKey st') a) (filtered st')
           = filter (same_field (sortKey st') a) kept)
    /\ (forall l : list user,
           StronglySorted (fun a b => cmp (sortDir st') a b (sortKey st') <= 0) l ->
           (forall a, filter (same_field (sortKey st') a) l
                      = filter (same_field (sortKey st') a) kept) ->
           l = filtered st').
Proof.
  intros st k st' kept.
  assert (Hkey : sortkey_eqb (sortKey st) k = true <-> sortKey st = k).
  { destruct (sortKey st), k; simpl; split; congruence. }
  split; [|split; [|split; [|split; [|split; [|split]]]]].
  - intros He. subst st'. unfold click_header.
    rewrite (proj2 Hkey He). split; reflexivity.
  - intros Hne. subst st'. unfold click_header.
    destruct (sortkey_eqb (sortKey st) k) eqn:E.
    + exfalso. apply Hne. now apply Hkey.
    + split; reflexivity.
  - intros a b. split; [apply (cmp_neg asc)|].
    split; [apply (cmp_neg desc)|]. split; [intros d; apply cmp_zero|].
    intros d. unfold cmp.
    destruct (lt_at k a b) eqn:Hab.
    + rewrite (lt_at_asym _ _ _ Hab). destruct d; lia.
    + destruct (lt_at k b a); destruct d; lia.
  - subst st' kept. unfold click_header. rewrite render_filtered. apply sort_perm.
  - subst st'. unfold click_header. rewrite render_filtered.
    apply sort_sorted; intros *; [apply cmp_rev | apply cmp_trans].
  - intros a. subst st' kept. unfold click_header. rewrite render_filtered.
    apply filter_sort. intros x y Hx Hy.
    apply same_field_eq in Hx, Hy.
    apply Z.eq_le_incl, cmp_zero.
    transitivity (field (sortKey (click_header k st)) a); [symmetry; exact Hx | exact Hy].
  - intros l Hs Hf. subst st' kept. unfold click_header in *.
    exact (render_order_determined _ l Hs Hf).
Qed.

Lemma users_sort_toggle_stable_witness :
  let st := loaded (Ok (Some [neil])) (init "" "" "" false false) in
  (sortKey (click_header K_user_id st) = K_user_id
   /\ sortDir (click_header K_user_id st) = desc)
  /\ (sortKey (click_header K_name st) = K_name
      /\ sortDir (click_header K_name st) = asc).
Proof.
  intro st. split.
  - apply (proj1 (users_sort_toggle_stable st K_user_id)). reflexivity.
  - apply (proj1 (proj2 (users_sort_toggle_stable st K_name))). discriminate.
Defined.

End UsersClaims.

(** ** The event loop *)

Section AsyncFacts.
Context {S E : Type}.
Variable v : view S E.
Variable Inv : page S -> Prop.
Hypothesis Inv_step : forall p ev, Inv p -> Inv (step v p ev).

(** An invariant of every turn is an invariant of every run. *)
Lemma run_invariant (evs : list (event E)) (p : page S) : Inv p -> Inv (run v p evs).
Proof.
  revert p. induction evs as [|ev evs IH]; intros p Hp; [exact Hp|].
  apply IH, Inv_step, Hp.
Qed.
End AsyncFacts.

Lemma run_app {S E : Type} (v : view S E) (p : page S) (a b : list (event E)) :
  run v p (a ++ b) = run v (run v p a) b.
Proof. unfold run. apply fold_left_app. Qed.

(** ** Trimming *)

Lemma trimEnd_empty (s : string) : JsString.trimEnd s = "" <-> all_space s = true.
Proof.
  induction s as [|c s IH]; simpl; [tauto|].
  destruct (JsString.trimEnd s) eqn:E.
  - destruct (JsString.is_space c); simpl.
    + rewrite <- IH. tauto.
    + split; discriminate.
  - split; [discriminate|]. rewrite andb_true_iff. intros [_ H].
    apply IH in H. discriminate.
Qed.

Lemma trimStart_head (s : string) :
  JsString.trimStart s = "" \/
  exists c r, JsString.trimStart s = String c r /\ JsString.is_space c = false.
Proof.
  induction s as [|c s IH]; simpl; [now left|].
  destruct (JsString.is_space c) eqn:E; [exact IH|].
  right. now exists c, s.
Qed.

Lemma trimStart_empty (s : string) : JsString.trimStart s = "" <-> all_space s = true.
Proof.
  induction s as [|c s IH]; simpl; [tauto|].
  destruct (JsString.is_space c); simpl; [exact IH|]. split; discriminate.
Qed.

(** [trim] leaves nothing exactly of the strings made of white space. *)
Lemma trim_empty (s : string) : JsString.trim s = "" <-> all_space s = true.
Proof.
  unfold JsString.trim. rewrite trimEnd_empty, <- (trimStart_empty s).
  destruct (trimStart_head s) as [-> | [c [r [-> Hc]]]].
  - simpl. split; reflexivity.
  - simpl. rewrite Hc. simpl. split; discriminate.
Qed.

(** ** The register form *)

Section RegisterFacts.
Import Register.

Lemma on_click_no_name (st : state) :
  JsString.trim (name_value st) = "" ->
  on_click st = (toast_ "Name is required" "error" st, Done).
Proof. intros H. unfold on_click. now rewrite H. Qed.

Lemma on_click_no_file (st : state) :
  JsString.trim (name_value st) <> "" -> image_files st = [] ->
  on_click st = (toast_ "Upload a face image" "error" st, Done).
Proof.
  intros Hn Hf. unfold on_click. rewrite Hf.
  destruct (JsString.trim (name_value st)); [congruence | reflexivity].
Qed.

Lemma on_click_submit (st : state) (f : file) (fs : list file) :
  JsString.trim (name_value st) <> "" -> image_files st = f :: fs ->
  on_click st =
  (set_button true "Uploading..." st,
   Await (POST "/register" (Some (form_data (JsString.trim (name_value st)) f st)))
     (fun r st' => (after_post r st', Done))).
Proof.
  intros Hn Hf. unfold on_click. rewrite Hf.
  destruct (JsString.trim (name_value st)); [congruence | reflexivity].
Qed.

Lemma is_success_reports (data : jsval) :
  is_success data = true <-> reports_success (Ok data).
Proof.
  unfold is_success, reports_success. split.
  - rewrite andb_true_iff. intros [_ H]. exists data. split; [reflexivity|].
    destruct (prop data "status") as [[| | |s| |]|]; try discriminate.
    apply String.eqb_eq in H. now subst.
  - intros [d [Hd Hs]]. injection Hd as <-. rewrite Hs.
    destruct data; try discriminate. reflexivity.
Qed.

Lemma settle_success (r : outcome jsval) (st : state) :
  reports_success r ->
  settle r st =
  set_preview (preview_src st) true false
    (set_fields "" "" "" "" [] (toast_ "Registered successfully" "info" st)).
Proof.
  intros H. destruct H as [d [-> Hs]]. unfold settle.
  assert (Hd : is_success d = true) by (apply is_success_reports; now exists d).
  now rewrite Hd.
Qed.

Lemma settle_failure (r : outcome jsval) (st : state) :
  ~ reports_success r ->
  exists msg, settle r st = toast_ msg "error" st.
Proof.
  intros H. destruct r as [d|e]; unfold settle.
  - destruct (is_success d) eqn:Hd.
    + exfalso. apply H. now apply is_success_reports.
    + eexists. reflexivity.
  - eexists. reflexivity.
Qed.

Lemma reports_success_dec (r : outcome jsval) : reports_success r \/ ~ reports_success r.
Proof.
  destruct r as [d|e].
  - destruct (is_success d) eqn:Hd.
    + left. now apply is_success_reports.
    + right. intros H. apply is_success_reports in H. congruence.
  - right. intros [d [H _]]. discriminate.
Qed.

(** The page after the button was clicked on a complete form [s] and the
    POST settled with [r]. *)
Lemma submit_and_settle (s : state) (r : outcome jsval) :
  btn_disabled s = false ->
  JsString.trim (name_value s) <> "" -> image_files s <> [] ->
  dom (run view (idle s) [Click; Settle 0 r])
  = after_post r (set_button true "Uploading..." s).
Proof.
  intros Hb Hn Hf. destruct (image_files s) as [|f fs] eqn:Ef; [congruence|].
  unfold run, idle. cbn [fold_left step dom]. cbn [view button_disabled].
  rewrite Hb. change (Async.on_click view s) with (on_click s).
  rewrite (on_click_submit s f fs Hn Ef). reflexivity.
Qed.

End RegisterFacts.

Section RegisterClaims.
Import Register.

(** C6. A click on the register button with a name that is not blank and
    no image selected pushes the toast "Upload a face image" and issues no
    request; whenever the name is blank or no image is selected the click
    issues no request at all, so a POST to /register is issued only for a
    click with both, and then it is issued. *)
Theorem register_requires_name_and_image :
  forall p : page state,
    (btn_disabled (dom p) = false ->
     JsString.trim (name_value (dom p)) <> "" -> image_files (dom p) = [] ->
     toasts (dom (step view p Click))
     = pushToast "Upload a face image" "error" (toasts (dom p))
     /\ fields (dom (step view p Click)) = fields (dom p)
     /\ sent (step view p Click) = sent p
     /\ inflight (step view p Click) = inflight p)
    /\ (JsString.trim (name_value (dom p)) = "" \/ image_files (dom p) = [] ->
        sent (step view p Click) = sent p
        /\ inflight (step view p Click) = inflight p)
    /\ (forall f fs,
           btn_disabled (dom p) = false ->
           JsString.trim (name_value (dom p)) <> "" -> image_files (dom p) = f :: fs ->
           sent (step view p Click)
           = (sent p ++ [POST "/register"
                           (Some (form_data (JsString.trim (name_value (dom p))) f (dom p)))])%list).
Proof.
  intros p. split; [|split].
  - intros Hb Hn Hf. cbn [step view button_disabled Async.on_click].
    rewrite Hb, (on_click_no_file _ Hn Hf). cbn.
    rewrite !app_nil_r. repeat split; reflexivity.
  - intros H. cbn [step view button_disabled Async.on_click].
    destruct (btn_disabled (dom p)); [split; reflexivity|].
    destruct (string_dec (JsString.trim (name_value (dom p))) "") as [He|Hne].
    + rewrite (on_click_no_name _ He). cbn. rewrite !app_nil_r. split; reflexivity.
    + destruct H as [H|H]; [congruence|].
      rewrite (on_click_no_file _ Hne H). cbn. rewrite !app_nil_r. split; reflexivity.
  - intros f fs Hb Hn Hf. cbn [step view button_disabled Async.on_click].
    rewrite Hb, (on_click_submit _ f fs Hn Hf). reflexivity.
Qed.

(** C10. The name is tested after trimming and before the image: a click
    with a name field that is empty or all white space pushes the toast
    "Name is required" and issues no request, whether or not an image is
    selected. *)
Theorem register_blank_name :
  forall p : page state,
    btn_disabled (dom p) = false ->
    all_space (name_value (dom p)) = true ->
    toasts (dom (step view p Click))
    = pushToast "Name is required" "error" (toasts (dom p))
    /\ fields (dom (step view p Click)) = fields (dom p)
    /\ sent (step view p Click) = sent p
    /\ inflight (step view p Click) = inflight p.
Proof.
  intros p Hb Hs. apply trim_empty in Hs.
  cbn [step view button_disabled Async.on_click].
  rewrite Hb, (on_click_no_name _ Hs). cbn.
  rewrite !app_nil_r. repeat split; reflexivity.
Qed.

(** C8. When the POST of a submission settles, the five form fields are
    emptied and the preview is hidden if the POST resolved with a body
    whose status is 'success'; on every other outcome (another body, a
    thrown error) the fields and the preview keep their values and one
    error toast is pushed. For a submission as a whole the form ends up
    cleared exactly when the POST reported success. *)
Theorem register_clears_on_success_only :
  forall (r : outcome jsval) (st : state),
    (reports_success r ->
     fields (after_post r st) = cleared
     /\ preview_hidden (after_post r st) = true
     /\ noprev_hidden (after_post r st) = false)
    /\ (~ reports_success r ->
        fields (after_post r st) = fields st
        /\ preview_hidden (after_post r st) = preview_hidden st
        /\ noprev_hidden (after_post r st) = noprev_hidden st
        /\ preview_src (after_post r st) = preview_src st
        /\ exists msg, toasts (after_post r st) = pushToast msg "error" (toasts st))
    /\ (btn_disabled st = false ->
        JsString.trim (name_value st) <> "" -> image_files st <> [] ->
        (fields (dom (run view (idle st) [Click; Settle 0 r])) = cleared
         <-> reports_success r)
        /\ (~ reports_success r ->
            fields (dom (run view (idle st) [Click; Settle 0 r])) = fields st)).
Proof.
  intros r st. split; [|split].
  - intros H. unfold after_post. rewrite (settle_success r st H). repeat split.
  - intros H. unfold after_post.
    destruct (settle_failure r st H) as [msg ->]. repeat split.
    now exists msg.
  - intros Hb Hn Hf. rewrite (submit_and_settle st r Hb Hn Hf). unfold after_post.
    split; [split|].
    + intros Hc. destruct (reports_success_dec r) as [Hs|Hs]; [exact Hs|].
      destruct (settle_failure r (set_button true "Uploading..." st) Hs) as [msg Hm].
      rewrite Hm in Hc. cbn in Hc. unfold cleared in Hc.
      exfalso. apply Hn. injection Hc as -> _ _ _ _. reflexivity.
    + intros Hs. now rewrite (settle_success r _ Hs).
    + intros Hs.
      destruct (settle_failure r (set_button true "Uploading..." st) Hs) as [msg ->].
      reflexivity.
Qed.

End RegisterClaims.

(** ** The fetch wrappers *)

Section WrapperClaims.
Variable JSON_parse : string -> option jsval.
Variable syntax_message : string -> string.

Let get := apiGET JSON_parse syntax_message.
Let post := apiPOST JSON_parse syntax_message.

(** Reading or parsing a body never fails with a plain [Error]. *)
Lemma decode_error_name (res : response) (e : jserror) :
  decode JSON_parse syntax_message res = Throw e -> ename e <> Error.
Proof.
  unfold decode, json, text_value, text.
  destruct (JsString.includes _ _); destruct (content res) as [b|why];
    try destruct (JSON_parse b); intros H; inversion H; subst; simpl; discriminate.
Qed.

(** C7. For every response, [apiGET] throws the error made of the HTTP
    status and status text when [res.ok] is false, and throws a plain
    [Error] in no other case; when [res.ok] is true it settles as
    [res.json()] if the content-type header contains 'application/json'
    and as [res.text()] otherwise (no header counting as the empty
    string). [apiPOST] settles as [apiGET] does on a successful response;
    on an unsuccessful one it throws an [Error] whose message is the
    response's body text when that can be read and is not empty, and the
    status and status text otherwise. *)
Theorem api_wrappers_contract :
  forall res : response,
    (ok res = false -> get (Ok res) = Throw (http_error res))
    /\ ((exists e, get (Ok res) = Throw e /\ ename e = Error) <-> ok res = false)
    /\ (ok res = true ->
        JsString.includes (or_absent (content_type res)) "application/json" = true ->
        get (Ok res) = json JSON_parse syntax_message res)
    /\ (ok res = true ->
        JsString.includes (or_absent (content_type res)) "application/json" = false ->
        get (Ok res) = text_value res)
    /\ (ok res = true -> post (Ok res) = get (Ok res))
    /\ (forall b, ok res = false -> content res = Readable b -> b <> "" ->
           post (Ok res) = Throw {| ename := Error; message := b |})
    /\ (ok res = false -> (content res = Readable "" \/ exists why, content res = Unreadable why) ->
        post (Ok res) = Throw (http_error res)).
Proof.
  intros res. subst get post. unfold apiGET, apiPOST.
  split; [|split; [|split; [|split; [|split; [|split]]]]].
  - intros H. now rewrite H.
  - split.
    + intros [e [He Hn]]. destruct (ok res) eqn:Hok; [|reflexivity].
      simpl in He. exfalso. exact (decode_error_name res e He Hn).
    + intros H. rewrite H. simpl. exists (http_error res). split; reflexivity.
  - intros H Hct. rewrite H. simpl. unfold decode.
    rewrite or_empty_absent. now rewrite Hct.
  - intros H Hct. rewrite H. simpl. unfold decode.
    rewrite or_empty_absent. now rewrite Hct.
  - intros H. now rewrite H.
  - intros b H Hb Hne. rewrite H. simpl. unfold post_error_message, text_or_null, text.
    rewrite Hb. destruct b; [congruence | reflexivity].
  - intros H Hb. rewrite H. simpl. unfold post_error_message, text_or_null, text.
    destruct Hb as [-> | [why ->]]; reflexivity.
Qed.

End WrapperClaims.

(** ** The dashboard *)

Section DashboardClaims.
Import Dashboard.

(** C9. A click on the mark-attendance button first issues the POST. The
    GET is issued exactly when the POST throws. The result of the request
    that succeeds is shown as [JSON.stringify] prints it with a gap of two
    spaces; when both throw, the result box shows the message of the GET's
    error and an error toast with that message is pushed. *)
Theorem mark_attendance_post_then_get :
  forall (s : state) (r1 r2 : outcome jsval),
    btn_disabled s = false ->
    let p0 := run view (idle s) [Click] in
    let p1 := run view (idle s) [Click; Settle 0 r1] in
    let p2 := run view (idle s) [Click; Settle 0 r1; Settle 0 r2] in
    sent p0 = [mark_post]
    /\ (forall result, r1 = Ok result ->
          sent p1 = [mark_post] /\ inflight p1 = [] /\ p2 = p1
          /\ pre_text (dom p1) = Json.serialize "  " "" result
          /\ toasts (dom p1) = pushToast "Attendance processed" "info" (toasts s))
    /\ (forall e1, r1 = Throw e1 ->
          sent p1 = [mark_post; mark_get] /\ sent p2 = [mark_post; mark_get]
          /\ inflight p2 = []
          /\ (forall result, r2 = Ok result ->
                pre_text (dom p2) = Json.serialize "  " "" result
                /\ toasts (dom p2) = pushToast "Attendance processed" "info" (toasts s))
          /\ (forall e2, r2 = Throw e2 ->
                pre_text (dom p2) = message e2
                /\ toasts (dom p2)
                   = pushToast ("Attendance failed: " ++ message e2) "error" (toasts s)))
    /\ (In mark_get (sent p2) <-> exists e1, r1 = Throw e1).
Proof.
  intros [d t ts] r1 r2 Hb. cbn in Hb. subst d. cbv zeta.
  split; [reflexivity|]. split; [|split].
  - intros result ->. repeat split.
  - intros e1 ->. split; [reflexivity|]. split; [reflexivity|].
    split; [destruct r2; reflexivity|].
    split; intros ? ->; split; reflexivity.
  - destruct r1 as [res|e1].
    + split.
      * cbn. intros [H|[]]. discriminate.
      * intros [e1 H]. discriminate.
    + split; [intros _; now exists e1|].
      intros _. cbn. right. now left.
Qed.

End DashboardClaims.

(** ** The attendance view *)

Section AttendanceClaims.
Import Attendance.
Variable toLocaleString : option jsval -> string.
Variable null_read_message : string -> string.

Let v := view toLocaleString null_read_message.

(** C4. After the fetch of an apply click settles, the table body shows
    one of three message rows besides the loading row: "No data", without
    a toast, for a body that is not an array; "No records", without a
    toast, for the empty array; an "Error: ..." row together with an
    error toast when the fetch throws. Whatever the fetch settles to, the
    body is one of these three rows or the rows of the records, and a
    toast is pushed only with the error row. The message rows differ from
    one another and from the loading row. *)
Theorem attendance_outcomes :
  forall (s : state) (r : outcome jsval),
    apply_disabled s = false ->
    let p := run v (idle s) [Click; Settle 0 r] in
    tbody_html (dom (run v (idle s) [Click])) = notice "Loading..."
    /\ (forall data, r = Ok data -> isArray data = false ->
          tbody_html (dom p) = notice "No data" /\ toasts (dom p) = toasts s)
    /\ (r = Ok (VArr []) ->
        tbody_html (dom p) = notice "No records" /\ toasts (dom p) = toasts s)
    /\ (forall e, r = Throw e ->
          tbody_html (dom p) = notice ("Error: " ++ message e)
          /\ toasts (dom p)
             = pushToast ("Failed to load attendance: " ++ message e) "error" (toasts s))
    /\ ((exists m,
           tbody_html (dom p) = notice ("Error: " ++ m)
           /\ toasts (dom p) = pushToast ("Failed to load attendance: " ++ m) "error" (toasts s))
        \/ (toasts (dom p) = toasts s
            /\ (tbody_html (dom p) = notice "No data"
                \/ tbody_html (dom p) = notice "No records"
                \/ exists items hs,
                     r = Ok (VArr items) /\ items <> []
                     /\ render_rows toLocaleString null_read_message items = Ok hs
                     /\ tbody_html (dom p) = JsString.join "" hs)))
    /\ (notice "No data" <> notice "No records"
        /\ forall m,
             notice ("Error: " ++ m) <> notice "No data"
             /\ notice ("Error: " ++ m) <> notice "No records"
             /\ notice ("Error: " ++ m) <> notice "Loading..."
             /\ notice "Loading..." <> notice "No data"
             /\ notice "Loading..." <> notice "No records").
Proof.
  intros s r Hb. subst v. cbv zeta.
  unfold run, idle. cbn [fold_left step dom view button_disabled].
  rewrite Hb. cbn.
  split; [reflexivity|]. split; [|split; [|split; [|split]]].
  - intros data -> Ha. cbn. rewrite Ha. cbn. split; reflexivity.
  - intros ->. cbn. split; reflexivity.
  - intros e ->. cbn. split; reflexivity.
  - destruct r as [data|e]; cbn.
    + destruct data as [| | | |items|]; cbn;
        try (right; split; [reflexivity | left; reflexivity]).
      destruct items as [|x items]; cbn [List.length Nat.eqb];
        [right; split; [reflexivity | right; left; reflexivity]|].
      destruct (render_rows toLocaleString null_read_message (x :: items)) as [hs|e] eqn:Hr.
      * right. split; [reflexivity|]. right. right. exists (x :: items), hs.
        split; [reflexivity|]. split; [discriminate|]. split; [exact Hr | reflexivity].
      * left. exists (message e). split; reflexivity.
    + left. exists (message e). split; reflexivity.
  - split; [cbv; discriminate|]. intros m.
    repeat split; cbv [notice Json.dquote]; simpl; discriminate.
Qed.

End AttendanceClaims.

(** ** Buttons and requests in flight *)

Section RegisterButton.
Import Register.

Lemma on_input_button (i : input) (st : state) :
  btn_disabled (on_input i st) = btn_disabled st.
Proof.
  destruct i; try reflexivity.
  cbn [on_input]. unfold image_changed. cbn [image_files set_fields].
  destruct fs; reflexivity.
Qed.

Lemma register_inv_step (p : page state) (ev : event input) :
  register_inv p -> register_inv (step view p ev).
Proof.
  intros Hp. destruct ev as [|i|i r].
  - cbn [step view button_disabled Async.on_click].
    destruct (btn_disabled (dom p)) eqn:Hb; [exact Hp|].
    destruct Hp as [[Hi _]|[rq [_ Hd]]]; [|congruence].
    destruct (string_dec (JsString.trim (name_value (dom p))) "") as [He|Hne].
    { rewrite (on_click_no_name _ He). left. cbn. now rewrite Hi, Hb. }
    destruct (image_files (dom p)) as [|f fs] eqn:Hf.
    { rewrite (on_click_no_file _ Hne Hf). left. cbn. now rewrite Hi, Hb. }
    rewrite (on_click_submit _ f fs Hne Hf). right. cbn. rewrite Hi.
    eexists. split; reflexivity.
  - cbn [step view Async.on_input dom inflight]. unfold register_inv. cbn [dom inflight].
    now rewrite on_input_button.
  - cbn [step]. destruct Hp as [[Hi Hb]|[rq [Hi Hb]]].
    + rewrite Hi. destruct i; cbn; left; now split.
    + rewrite Hi. destruct i as [|i]; cbn.
      * left. split; reflexivity.
      * destruct i; cbn; right; exists rq; now split.
Qed.

Lemma register_serialized : serialized view.
Proof.
  intros s evs Hb p.
  assert (Hp : register_inv p).
  { apply (run_invariant view register_inv register_inv_step). left. now split. }
  destruct Hp as [[Hi Hd]|[rq [Hi Hd]]]; unfold busy; rewrite Hi; cbn; split; auto.
Qed.
End RegisterButton.

Section DashboardButton.
Import Dashboard.

Lemma dashboard_inv_step (p : page state) (ev : event Empty_set) :
  dashboard_inv p -> dashboard_inv (step view p ev).
Proof.
  intros Hp. destruct ev as [|[]|i r].
  - cbn [step view button_disabled Async.on_click].
    destruct (btn_disabled (dom p)) eqn:Hb; [exact Hp|].
    destruct Hp as [[Hi _]|[rq [k [_ [_ Hd]]]]]; [|congruence].
    right. cbn. rewrite Hi. do 2 eexists.
    split; [reflexivity|]. split; [left; reflexivity | reflexivity].
  - cbn [step]. destruct Hp as [[Hi Hb]|[rq [k [Hi [Hk Hb]]]]].
    + rewrite Hi. destruct i; cbn; left; now split.
    + rewrite Hi. destruct i as [|i]; cbn.
      * destruct Hk as [-> | ->].
        -- destruct r as [res|e]; cbn.
           ++ left. split; reflexivity.
           ++ right. do 2 eexists. split; [reflexivity|]. split; [now right | exact Hb].
        -- cbn. left. split; [reflexivity | destruct r; reflexivity].
      * destruct i; cbn; right; exists rq, k; auto.
Qed.

Lemma dashboard_serialized : serialized view.
Proof.
  intros s evs Hb p.
  assert (Hp : dashboard_inv p).
  { apply (run_invariant view dashboard_inv dashboard_inv_step). left. now split. }
  destruct Hp as [[Hi Hd]|[rq [k [Hi [_ Hd]]]]]; unfold busy; rewrite Hi; cbn; split; auto.
Qed.
End DashboardButton.

Section AttendanceButton.
Import Attendance.
Variable toLocaleString : option jsval -> string.
Variable null_read_message : string -> string.

Let v := view toLocaleString null_read_message.
Let resume : outcome jsval -> state -> state * task state :=
  fun r st' => (after_get toLocaleString null_read_message r st', Done).

Lemma after_get_button (r : outcome jsval) (st : state) :
  apply_disabled (after_get toLocaleString null_read_message r st) = apply_disabled st.
Proof.
  unfold after_get. destruct r as [data|e]; [|reflexivity].
  destruct (negb (isArray data)); [reflexivity|].
  destruct (List.length (items_of data) =? 0)%nat; [reflexivity|].
  destruct (render_rows _ _ _); reflexivity.
Qed.

Lemma on_input_apply (i : input) (st : state) :
  apply_disabled (on_input i st) = apply_disabled st.
Proof.
  destruct i; try reflexivity.
  cbn [on_input]. unfold switchMode. cbn [filterType_value set_controls].
  destruct (String.eqb mode "single"); reflexivity.
Qed.

(** [load] never touches the apply button. *)
Lemma apply_button_untouched (s : state) (evs : list (event input)) :
  apply_disabled (dom (run v (idle s) evs)) = apply_disabled s.
Proof.
  pose (Inv := fun p : page state =>
                 apply_disabled (dom p) = apply_disabled s
                 /\ Forall (fun x => snd x = resume) (inflight p)).
  assert (Hstep : forall p ev, Inv p -> Inv (step v p ev)).
  { intros p ev [Hd Hall]. unfold Inv. destruct ev as [|i|i r].
    - subst v. cbn [step view button_disabled Async.on_click].
      destruct (apply_disabled (dom p)) eqn:Hb; [split; [congruence | assumption]|].
      cbn. split; [congruence|]. apply Forall_app. split; [exact Hall|].
      constructor; [reflexivity | constructor].
    - split; [|exact Hall]. subst v. cbn. now rewrite on_input_apply.
    - cbn [step]. destruct (nth_error (inflight p) i) as [[rq k]|] eqn:Hn;
        [|split; assumption].
      assert (Hk : k = resume).
      { apply nth_error_In in Hn. rewrite Forall_forall in Hall. exact (Hall _ Hn). }
      subst k. subst resume. cbn. rewrite after_get_button. split; [exact Hd|].
      rewrite app_nil_r. clear Hn.
      revert i. induction Hall as [|x l Hx Hl IH]; intros i; destruct i; cbn;
        try constructor; auto. }
  apply (run_invariant v Inv Hstep). split; [reflexivity | constructor].
Qed.

(** Two clicks in a row put two fetches in flight. *)
Lemma apply_twice (s : state) :
  apply_disabled s = false ->
  List.length (inflight (run v (idle s) [Click; Click])) = 2%nat.
Proof.
  intros Hb. subst v. unfold run, idle. cbn [fold_left step dom view button_disabled].
  rewrite Hb. cbn. rewrite Hb. reflexivity.
Qed.

Lemma apply_not_serialized (s : state) : apply_disabled s = false -> ~ serialized v.
Proof.
  intros Hb H. specialize (H s [Click; Click] Hb). cbv zeta in H.
  rewrite (apply_twice s Hb) in H. lia.
Qed.
End AttendanceButton.

(** *** The claim on the three buttons *)

(** C5, as the code has it. The register and the mark-attendance buttons
    serialise their requests: at most one request of the button is in
    flight, the button is disabled exactly while one is, and a click in
    that time changes nothing. The apply button of the attendance view is
    never disabled by its listener, and a second click while a fetch is in
    flight starts a second fetch. *)
Theorem request_buttons_serialized :
  serialized Register.view
  /\ serialized Dashboard.view
  /\ (forall s evs,
         Register.btn_disabled s = false ->
         busy (run Register.view (idle s) evs) = true ->
         step Register.view (run Register.view (idle s) evs) Click
         = run Register.view (idle s) evs)
  /\ (forall s evs,
         Dashboard.btn_disabled s = false ->
         busy (run Dashboard.view (idle s) evs) = true ->
         step Dashboard.view (run Dashboard.view (idle s) evs) Click
         = run Dashboard.view (idle s) evs)
  /\ (forall f g s evs,
         Attendance.apply_disabled (dom (run (Attendance.view f g) (idle s) evs))
         = Attendance.apply_disabled s)
  /\ (forall f g s,
         Attendance.apply_disabled s = false ->
         List.length (inflight (run (Attendance.view f g) (idle s) [Click; Click])) = 2%nat).
Proof.
  split; [exact register_serialized|]. split; [exact dashboard_serialized|].
  split; [|split; [|split]].
  - intros s evs Hb Hbusy.
    destruct (register_serialized s evs Hb) as [_ Hd]. cbv zeta in Hd.
    rewrite Hbusy in Hd. cbn [step]. now rewrite Hd.
  - intros s evs Hb Hbusy.
    destruct (dashboard_serialized s evs Hb) as [_ Hd]. cbv zeta in Hd.
    rewrite Hbusy in Hd. cbn [step]. now rewrite Hd.
  - intros f g s evs. apply apply_button_untouched.
  - intros f g s Hb. now apply apply_twice.
Qed.

Lemma request_buttons_serialized_witness :
  (List.length (inflight (run Register.view (idle filled) [Click; Click])) <= 1)%nat
  /\ Register.btn_disabled (dom (run Register.view (idle filled) [Click; Click])) = true
  /\ Dashboard.btn_disabled
       (dom (run Dashboard.view (idle dashboard0) [Click; Settle 0 (Ok VNull)])) = false
  /\ List.length (inflight (run attendance_view0 (idle attendance0) [Click; Click])) = 2%nat.
Proof.
  split; [|split; [|split]].
  - apply (proj1 request_buttons_serialized filled [Click; Click]). reflexivity.
  - apply (proj1 request_buttons_serialized filled [Click; Click]). reflexivity.
  - apply (proj1 (proj2 request_buttons_serialized) dashboard0 [Click; Settle 0 (Ok VNull)]).
    reflexivity.
  - apply (proj2 (proj2 (proj2 (proj2 (proj2 request_buttons_serialized))))). reflexivity.
Defined.

(** C5 as stated fails on the apply button: the first click leaves the
    button enabled with its fetch in flight, and the second click starts a
    second fetch. *)
Lemma apply_button_duplicate_request :
  Attendance.apply_disabled (dom (run attendance_view0 (idle attendance0) [Click])) = false
  /\ List.length (inflight (run attendance_view0 (idle attendance0) [Click])) = 1%nat
  /\ sent (run attendance_view0 (idle attendance0) [Click; Click])
     = [GET "/api/attendance"
          (Some [("filter_type", "range"); ("start_date", "2024-01-01");
                 ("end_date", "2024-01-31")]);
        GET "/api/attendance"
          (Some [("filter_type", "range"); ("start_date", "2024-01-01");
                 ("end_date", "2024-01-31")])]
  /\ ~ (serialized Register.view /\ serialized Dashboard.view
        /\ serialized attendance_view0).
Proof.
  split; [reflexivity|]. split; [reflexivity|]. split; [reflexivity|].
  intros [_ [_ H]]. revert H. now apply apply_not_serialized with (s := attendance0).
Qed.

(** *** Instances *)

Lemma attendance_outcomes_witness :
  Attendance.tbody_html (dom (run attendance_view0 (idle attendance0) [Click; Settle 0 (Ok (VArr []))]))
  = Attendance.notice "No records"
  /\ Attendance.toasts (dom (run attendance_view0 (idle attendance0) [Click; Settle 0 (Ok (VArr []))]))
     = [].
Proof.
  apply (proj1 (proj2 (proj2
           (attendance_outcomes (fun d => ToString_opt d) (fun k => ("null has no " ++ k)%string)
              attendance0 (Ok (VArr [])) eq_refl)))).
  reflexivity.
Defined.

Lemma register_requires_name_and_image_witness :
  Register.toasts (dom (step Register.view (idle no_image) Click))
  = pushToast "Upload a face image" "error" []
  /\ sent (step Register.view (idle no_image) Click) = []
  /\ sent (step Register.view (idle filled) Click)
     = [POST "/register"
          (Some [("name", Text "Neil"); ("email", Text "n@office.example");
                 ("salary", Text "100"); ("image", Blob face)])].
Proof.
  pose proof (register_requires_name_and_image (idle no_image)) as [H1 [_ _]].
  pose proof (register_requires_name_and_image (idle filled)) as [_ [_ H3]].
  destruct (H1 eq_refl ltac:(discriminate) eq_refl) as [Ht [_ [Hs _]]].
  split; [exact Ht|]. split; [exact Hs|].
  exact (H3 face [] eq_refl ltac:(discriminate) eq_refl).
Defined.

Lemma register_blank_name_witness :
  Register.toasts (dom (step Register.view (idle blank) Click))
  = pushToast "Name is required" "error" []
  /\ sent (step Register.view (idle blank) Click) = [].
Proof.
  destruct (register_blank_name (idle blank) eq_refl eq_refl) as [Ht [_ [Hs _]]].
  split; [exact Ht | exact Hs].
Defined.

Lemma register_clears_on_success_only_witness :
  Register.fields (dom (run Register.view (idle filled) [Click; Settle 0 (Ok success_body)]))
  = cleared
  /\ Register.fields
       (dom (run Register.view (idle filled) [Click; Settle 0 (Ok (VStr "busy"))]))
     = Register.fields filled.
Proof.
  split.
  - apply (proj2 (proj2 (register_clears_on_success_only (Ok success_body) filled))
             eq_refl ltac:(discriminate) ltac:(discriminate)).
    exists success_body. split; reflexivity.
  - apply (proj2 (proj2 (register_clears_on_success_only (Ok (VStr "busy")) filled))
             eq_refl ltac:(discriminate) ltac:(discriminate)).
    intros [d [Hd Hs]]. injection Hd as <-. discriminate.
Defined.

Lemma mark_attendance_post_then_get_witness :
  sent (run Dashboard.view (idle dashboard0)
          [Click; Settle 0 (Throw {| ename := Error; message := "405 Method Not Allowed" |});
           Settle 0 (Ok (VArr [VNum 1; VNum 2]))])
  = [mark_post; mark_get]
  /\ Dashboard.pre_text
       (dom (run Dashboard.view (idle dashboard0)
               [Click; Settle 0 (Throw {| ename := Error; message := "405 Method Not Allowed" |});
                Settle 0 (Ok (VArr [VNum 1; VNum 2]))]))
     = Json.serialize "  " "" (VArr [VNum 1; VNum 2]).
Proof.
  pose proof (mark_attendance_post_then_get dashboard0
                (Throw {| ename := Error; message := "405 Method Not Allowed" |})
                (Ok (VArr [VNum 1; VNum 2])) eq_refl) as H.
  cbv zeta in H. destruct H as [_ [_ [H _]]].
  destruct (H _ eq_refl) as [_ [Hs [_ [Hok _]]]].
  split; [exact Hs|]. exact (proj1 (Hok _ eq_refl)).
Defined.

Lemma api_wrappers_contract_witness :
  apiGET (fun _ => None) (fun _ => "") (Ok not_found)
  = Throw {| ename := Error; message := "404 Not Found" |}
  /\ apiPOST (fun _ => None) (fun _ => "") (Ok not_found)
     = Throw {| ename := Error; message := "user exists" |}.
Proof.
  pose proof (api_wrappers_contract (fun _ => None) (fun _ => "") not_found)
    as [Hg [_ [_ [_ [_ [Hp _]]]]]].
  split.
  - exact (Hg eq_refl).
  - exact (Hp "user exists" eq_refl eq_refl ltac:(discriminate)).
Defined.

(** *** Worked examples *)

Example stringify_two_spaces :
  Json.stringify (VObj [("status", VStr "ok"); ("ids", VArr [VNum 1; VNum 2]); ("none", VArr [])]) 2
  = ("{" ++ Json.newline
     ++ "  " ++ Json.quote "status" ++ ": " ++ Json.quote "ok" ++ "," ++ Json.newline
     ++ "  " ++ Json.quote "ids" ++ ": [" ++ Json.newline
     ++ "    1," ++ Json.newline
     ++ "    2" ++ Json.newline
     ++ "  ]," ++ Json.newline
     ++ "  " ++ Json.quote "none" ++ ": []" ++ Json.newline
     ++ "}")%string.
Proof. reflexivity. Qed.

Example stable_by_name :
  let u (i : Z) (n : string) :=
    {| Users.user_id := i; Users.name := n; Users.email := None;
       Users.proxy := None; Users.salary := None |} in
  List.map Users.user_id
    (Users.filtered
       (Users.click_header Users.K_name
          (Users.loaded (Ok (Some [u 3 "b"; u 1 "a"; u 2 "b"; u 4 "a"]))
             (Users.init "" "" "" false false))))
  = [1; 4; 3; 2].
Proof. reflexivity. Qed.

Example search_ignores_case :
  Users.keep "nEiL" neil = true /\ Users.keep "7neil" neil = true
  /\ Users.keep "proxy" neil = false.
Proof. repeat split. Qed.

Example trim_examples :
  JsString.trim "  a b  " = "a b" /\ JsString.trim "   " = ""
  /\ JsString.of_Z (-12) = "-12" /\ JsString.of_Z 0 = "0".
Proof. repeat split. Qed.

(* ===================================================================== *)
(** * Part III. Further properties of the scripts *)
(* ===================================================================== *)

(** ** The users view: pages *)

Lemma slice_range {A : Type} (l : list A) (a b : Z) :
  0 <= a -> a <= b ->
  JsArray.slice l a b = firstn (Z.to_nat (b - a)) (skipn (Z.to_nat a) l).
Proof.
  intros Ha Hab. unfold JsArray.slice.
  destruct (Z.ltb_spec a 0) as [|_]; [lia|].
  destruct (Z.ltb_spec b 0) as [|_]; [lia|].
  destruct (Z_le_gt_dec a (Z.of_nat (List.length l))) as [Hal|Hal].
  - rewrite (Z.min_l a) by lia.
    destruct (Z_le_gt_dec b (Z.of_nat (List.length l))) as [Hbl|Hbl].
    + rewrite (Z.min_l b) by lia. now rewrite Z.max_l by lia.
    + rewrite (Z.min_r b) by lia. rewrite Z.max_l by lia.
      rewrite !firstn_all2; [reflexivity | |]; rewrite length_skipn; lia.
  - rewrite (Z.min_r a), (Z.min_r b) by lia.
    rewrite Z.sub_diag. cbn [Z.max Z.to_nat firstn].
    rewrite (skipn_all2 (n := Z.to_nat a)) by lia. now rewrite firstn_nil.
Qed.

Section UsersPages.
Import Users.

Lemma render_page_range (st : state) :
  1 <= page (render st) <= pages_of (List.length (filtered (render st))).
Proof. rewrite render_page. apply clamp_page_range, pages_of_pos. Qed.

Lemma render_rows_chunk (st : state) :
  rows (render st)
  = firstn 12 (skipn (Z.to_nat (12 * (page (render st) - 1))) (filtered (render st))).
Proof.
  pose proof (render_page_range st) as Hp.
  change (rows (render st))
    with (JsArray.slice (filtered (render st))
            ((page (render st) - 1) * perPage) (page (render st) * perPage)).
  unfold perPage. rewrite slice_range by lia.
  replace (page (render st) * 12 - (page (render st) - 1) * 12) with 12 by lia.
  now replace ((page (render st) - 1) * 12) with (12 * (page (render st) - 1)) by lia.
Qed.

(** Two states that differ only in what [render] overwrites, and whose
    page values clamp alike, render alike. *)
Lemma render_ext (a b : state) :
  users a = users b -> q_value a = q_value b ->
  sortKey a = sortKey b -> sortDir a = sortDir b -> toasts a = toasts b ->
  clamp_page (pages_of (List.length (filtered (render a)))) (page a)
  = clamp_page (pages_of (List.length (filtered (render a)))) (page b) ->
  render a = render b.
Proof.
  intros Hu Hq Hk Hd Ht Hp. rewrite render_filtered in Hp. unfold render.
  rewrite <- Hu, <- Hq, <- Hk, <- Hd, <- Ht, <- Hp. reflexivity.
Qed.

Lemma render_idem (st : state) : render (render st) = render st.
Proof.
  apply render_ext; try reflexivity.
  change (filtered (render (render st))) with (filtered (render st)).
  rewrite render_page. unfold clamp_page.
  pose proof (pages_of_pos (List.length (filtered (render st)))). lia.
Qed.

(** X1. The table shows the current page's chunk of the filtered list: the
    (at most) twelve records that follow the first [12 * (page - 1)]. The
    chunk is never empty when the filtered list is not, and it is full on
    every page but the last. *)
Theorem users_rows_are_page_chunk :
  forall st : state,
    let st' := render st in
    rows st' = firstn 12 (skipn (Z.to_nat (12 * (page st' - 1))) (filtered st'))
    /\ (List.length (rows st') <= 12)%nat
    /\ (filtered st' <> [] -> rows st' <> [])
    /\ (page st' < pages_of (List.length (filtered st')) -> List.length (rows st') = 12%nat).
Proof.
  intros st st'. subst st'.
  pose proof (render_page_range st) as Hp.
  pose proof (render_rows_chunk st) as Hr.
  assert (Hlen : List.length (rows (render st))
                 = Nat.min 12 (List.length (filtered (render st))
                               - Z.to_nat (12 * (page (render st) - 1)))).
  { rewrite Hr, length_firstn, length_skipn. reflexivity. }
  unfold pages_of, perPage in *.
  pose proof (ceil_div_bounds (Z.of_nat (List.length (filtered (render st)))) 12 ltac:(lia)) as Hc.
  split; [exact Hr|]. split; [lia|]. split.
  - intros Hne Hnil.
    assert (Hn : (0 < List.length (filtered (render st)))%nat).
    { destruct (filtered (render st)); [congruence | cbn; lia]. }
    rewrite Hnil in Hlen. cbn [List.length] in Hlen. lia.
  - intros Hlt. lia.
Qed.

(** X2. Every record of the filtered list can be reached: the record at
    position [i] is shown on page [i / 12 + 1], in row [i mod 12]. *)
Theorem users_every_record_on_a_page :
  forall (st : state) (i : nat),
    (i < List.length (filtered (render st)))%nat ->
    let st' := render (set_page (Z.of_nat (i / 12) + 1) st) in
    filtered st' = filtered (render st)
    /\ page st' = Z.of_nat (i / 12) + 1
    /\ nth_error (rows st') (i mod 12) = nth_error (filtered st') i.
Proof.
  intros st i Hi st'.
  assert (Hf : filtered st' = filtered (render st)) by reflexivity.
  pose proof (Nat.div_mod_eq i 12) as Hdm.
  pose proof (Nat.mod_upper_bound i 12 ltac:(lia)) as Hm.
  assert (Hpg : page st' = Z.of_nat (i / 12) + 1).
  { subst st'. rewrite render_page. cbn [page set_page].
    change (filtered (render (set_page (Z.of_nat (i / 12) + 1) st)))
      with (filtered (render st)).
    unfold clamp_page, pages_of, perPage.
    pose proof (ceil_div_bounds (Z.of_nat (List.length (filtered (render st)))) 12 ltac:(lia)).
    lia. }
  split; [exact Hf|]. split; [exact Hpg|].
  subst st'. rewrite render_rows_chunk, Hpg.
  rewrite nth_error_firstn.
  destruct (Nat.ltb_spec (i mod 12) 12) as [_|]; [|lia].
  rewrite nth_error_skipn. f_equal. lia.
Qed.

Lemma users_every_record_on_a_page_witness :
  nth_error
    (rows (render (set_page 2 (loaded (Ok (Some thirteen)) (init "" "" "" false false)))))
    0
  = nth_error (filtered (loaded (Ok (Some thirteen)) (init "" "" "" false false))) 12.
Proof.
  apply (proj2 (proj2 (users_every_record_on_a_page
                         (loaded (Ok (Some thirteen)) (init "" "" "" false false)) 12
                         ltac:(cbn; lia)))).
Defined.

(** X3. Rendering twice changes nothing more. The Prev flag is set exactly
    on page 1 and the Next flag exactly on the last page, and a Next click
    on the last page or a Prev click on page 1 leaves the whole view as it
    is. *)
Theorem users_paging_stops_at_ends :
  forall st : state,
    let st' := render st in
    let pages := pages_of (List.length (filtered st')) in
    render st' = st'
    /\ (prev_disabled st' = true <-> page st' = 1)
    /\ (next_disabled st' = true <-> page st' = pages)
    /\ (page st' = pages -> click_next st' = st')
    /\ (page st' = 1 -> click_prev st' = st').
Proof.
  intros st st' pages. subst st' pages.
  pose proof (render_page_range st) as Hp.
  split; [apply render_idem|]. split; [|split; [|split]].
  - change (prev_disabled (render st)) with (page (render st) <=? 1).
    rewrite Z.leb_le. lia.
  - change (next_disabled (render st))
      with (page (render st) >=? pages_of (List.length (filtered (render st)))).
    rewrite Z.geb_le. lia.
  - intros Hlast. unfold click_next. rewrite <- (render_idem st) at 3.
    apply render_ext; try reflexivity.
    cbn [page set_page]. unfold clamp_page.
    change (filtered (render (set_page (page (render st) + 1) (render st))))
      with (filtered (render st)).
    lia.
  - intros Hfirst. unfold click_prev. rewrite <- (render_idem st) at 3.
    apply render_ext; try reflexivity.
    cbn [page set_page]. unfold clamp_page. lia.
Qed.

Lemma users_rows_are_page_chunk_witness :
  rows (loaded (Ok (Some thirteen)) (init "" "" "" false false)) <> []
  /\ List.length (rows (loaded (Ok (Some thirteen)) (init "" "" "" false false))) = 12%nat.
Proof.
  pose proof (users_rows_are_page_chunk
                (set_users thirteen [] (init "" "" "" false false))) as H.
  cbv zeta in H. destruct H as [_ [_ [Hne Hfull]]]. split.
  - apply Hne. discriminate.
  - apply Hfull. reflexivity.
Defined.

Lemma users_paging_stops_at_ends_witness :
  click_next (render (set_page 2 (set_users thirteen [] (init "" "" "" false false))))
  = render (set_page 2 (set_users thirteen [] (init "" "" "" false false)))
  /\ click_prev (render (set_users thirteen [] (init "" "" "" false false)))
     = render (set_users thirteen [] (init "" "" "" false false)).
Proof.
  split.
  - apply (proj1 (proj2 (proj2 (proj2
             (users_paging_stops_at_ends
                (set_page 2 (set_users thirteen [] (init "" "" "" false false)))))))).
    reflexivity.
  - apply (proj2 (proj2 (proj2 (proj2
             (users_paging_stops_at_ends
                (set_users thirteen [] (init "" "" "" false false))))))).
    reflexivity.
Defined.

End UsersPages.

(** ** The users view: search and order *)



Section UsersSearch.
Import Users.






(** X6. Two clicks on the header of the active column bring back the view
    as a plain render gives it: same direction, same order, same page. *)
Theorem users_header_twice_restores :
  forall (st : state) (k : sortkey),
    sortKey st = k -> click_header k (click_header k st) = render st.
Proof.
  intros st k <-. unfold click_header.
  assert (Hk : sortkey_eqb (sortKey st) (sortKey st) = true) by (destruct (sortKey st); reflexivity).
  rewrite Hk. cbn [sortKey render set_sort]. rewrite Hk.
  apply render_ext; cbn [users q_value sortKey sortDir toasts page set_sort render];
    try reflexivity.
  - now destruct (sortDir st).
  - rewrite !render_filtered.
    cbn [users q_value sortKey sortDir toasts page set_sort render].
    rewrite !sort_length. unfold clamp_page.
    pose proof (pages_of_pos (List.length (filter (keep (q_value st)) (users st)))). lia.
Qed.

Lemma users_header_twice_restores_witness :
  click_header K_user_id
    (click_header K_user_id (set_users thirteen [] (init "" "" "" false false)))
  = render (set_users thirteen [] (init "" "" "" false false)).
Proof. apply users_header_twice_restores. reflexivity. Defined.

(** X7. When the load fails, or resolves with something that is not an
    array, the view shows the empty list: no rows, "0 results", "Page 1 /
    1", both pager buttons disabled. A failure pushes one error toast that
    carries the error's message; a body that is not an array pushes none. *)
Theorem users_load_failure_shows_empty :
  forall (st : state) (e : jserror),
    let failed := loaded (Throw e) st in
    let odd := loaded (Ok None) st in
    (users failed = [] /\ rows failed = [] /\ page failed = 1
     /\ count_text failed = "0 results" /\ pageInfo_text failed = "Page 1 / 1"
     /\ prev_disabled failed = true /\ next_disabled failed = true
     /\ toasts failed
        = pushToast ("Failed to load users: " ++ message e) "error" (toasts st))
    /\ (users odd = [] /\ rows odd = [] /\ page odd = 1
        /\ count_text odd = "0 results" /\ pageInfo_text odd = "Page 1 / 1"
        /\ prev_disabled odd = true /\ next_disabled odd = true
        /\ toasts odd = toasts st).
Proof.
  intros st e failed odd.
  assert (Hp : forall p, clamp_page (pages_of 0) p = 1).
  { intros p. unfold clamp_page, pages_of. cbn. lia. }
  subst failed odd. unfold loaded, render.
  cbn [users set_users filter JsArray.sort List.length page q_value sortKey sortDir toasts
       rows count_text pageInfo_text prev_disabled next_disabled].
  rewrite !Hp. repeat split.
Qed.

End UsersSearch.

(** ** The users view: reversing the order *)

Lemma StronglySorted_snoc {A : Type} (R : A -> A -> Prop) (l : list A) (x : A) :
  StronglySorted R l -> Forall (fun y => R y x) l -> StronglySorted R (l ++ [x]).
Proof.
  induction 1 as [|y l Hs IH Hall]; intros Hx; cbn [app].
  - repeat constructor.
  - inversion Hx as [|? ? Hyx Hlx]; subst. constructor; [now apply IH|].
    apply Forall_app. split; [exact Hall | now repeat constructor].
Qed.

Lemma StronglySorted_rev {A : Type} (R : A -> A -> Prop) (l : list A) :
  StronglySorted R l -> StronglySorted (fun a b => R b a) (rev l).
Proof.
  induction 1 as [|x l Hs IH Hall]; cbn [rev]; [constructor|].
  apply StronglySorted_snoc; [exact IH|].
  apply Forall_rev. exact Hall.
Qed.

Lemma StronglySorted_iff {A : Type} (R R' : A -> A -> Prop) (l : list A) :
  (forall a b, R a b -> R' a b) -> StronglySorted R l -> StronglySorted R' l.
Proof.
  intros HR. induction 1 as [|x l Hs IH Hall]; constructor; [exact IH|].
  eapply Forall_impl; [|exact Hall]. intros y. apply HR.
Qed.

Section UsersReversal.
Import Users.

(** With distinct values in a column, at most one record has a given value. *)
Lemma distinct_class (k : sortkey) (a : user) (l : list user) :
  NoDup (List.map (field k) l) ->
  (List.length (filter (same_field k a) l) <= 1)%nat.
Proof.
  induction l as [|x l IH]; cbn [List.map filter List.length]; [lia|].
  intros Hnd. inversion Hnd as [|? ? Hx Hl]; subst.
  destruct (same_field k a x) eqn:Ex; [|now apply IH].
  cbn [List.length].
  assert (Hnone : filter (same_field k a) l = []).
  { destruct (filter (same_field k a) l) as [|y r] eqn:Ef; [reflexivity|].
    exfalso. apply Hx.
    assert (Hy : In y (filter (same_field k a) l)) by (rewrite Ef; now left).
    apply filter_In in Hy. destruct Hy as [Hyl Hy].
    apply same_field_eq in Ex, Hy. rewrite <- Ex, Hy. now apply in_map. }
  rewrite Hnone. cbn. lia.
Qed.

Lemma rev_short {B : Type} (l : list B) : (List.length l <= 1)%nat -> rev l = l.
Proof. destruct l as [|x [|y l]]; cbn; intros; [reflexivity | reflexivity | lia]. Qed.

Lemma cmp_toggled (d : direction) (k : sortkey) (a b : user) :
  cmp d b a k <= 0 -> cmp (toggled d) a b k <= 0.
Proof. rewrite !cmp_le. now destruct d. Qed.

(** X9. When the kept records have pairwise distinct values in the active
    column, a click on that column's header shows them in exactly the
    reverse order. *)
Theorem users_toggle_reverses_distinct :
  forall st : state,
    NoDup (List.map (field (sortKey st)) (filter (keep (q_value st)) (users st))) ->
    filtered (click_header (sortKey st) st) = rev (filtered (render st)).
Proof.
  intros st Hnd. unfold click_header.
  assert (Hk : sortkey_eqb (sortKey st) (sortKey st) = true) by (destruct (sortKey st); reflexivity).
  rewrite Hk. symmetry.
  apply (render_order_determined
           (set_sort (sortKey st) (match sortDir st with asc => desc | desc => asc end) st)).
  - cbn [sortDir sortKey set_sort].
    apply (StronglySorted_iff (fun a b => cmp (sortDir st) b a (sortKey st) <= 0)).
    + intros a b. apply (cmp_toggled (sortDir st)).
    + apply (StronglySorted_rev (fun a b => cmp (sortDir st) a b (sortKey st) <= 0)).
      apply render_sorted.
  - intros a. cbn [sortKey set_sort q_value users].
    rewrite filter_rev, render_stable. apply rev_short. now apply distinct_class.
Qed.

Lemma users_toggle_reverses_distinct_witness :
  filtered (click_header K_user_id
              (set_users (firstn 3 thirteen) [] (init "" "" "" false false)))
  = rev (filtered (render (set_users (firstn 3 thirteen) [] (init "" "" "" false false)))).
Proof.
  apply (users_toggle_reverses_distinct
           (set_users (firstn 3 thirteen) [] (init "" "" "" false false))).
  cbn. repeat constructor; cbn; intuition discriminate.
Defined.

End UsersReversal.

(** ** The attendance view: query, rows and late responses *)

Lemma params_get_set_same (k v : string) (ps : params) :
  params_get k (params_set k v ps) = Some v.
Proof.
  induction ps as [|[k' v'] ps IH]; cbn; [now rewrite String.eqb_refl|].
  destruct (String.eqb k k') eqn:E; cbn; [now rewrite String.eqb_refl|].
  now rewrite E.
Qed.

Lemma params_get_set_other (k k' v : string) (ps : params) :
  k <> k' -> params_get k' (params_set k v ps) = params_get k' ps.
Proof.
  intros Hne. induction ps as [|[k0 v0] ps IH]; cbn.
  - destruct (String.eqb_spec k' k); [congruence | reflexivity].
  - destruct (String.eqb_spec k k0) as [->|Hk]; cbn.
    + destruct (String.eqb_spec k' k0); [congruence | reflexivity].
    + destruct (String.eqb k' k0); [reflexivity | exact IH].
Qed.

Lemma params_set_keys (k v : string) (ps : params) :
  NoDup (List.map fst ps) -> NoDup (List.map fst (params_set k v ps)).
Proof.
  induction ps as [|[k0 v0] ps IH]; cbn; intros Hnd.
  - repeat constructor. intros [].
  - inversion Hnd as [|? ? Hx Hl]; subst.
    destruct (String.eqb_spec k k0) as [->|Hk]; cbn; [now constructor|].
    constructor; [|now apply IH].
    intros Hin. apply Hx. clear - Hin Hk.
    induction ps as [|[k1 v1] ps IH]; cbn in *.
    + destruct Hin as [E|[]]. congruence.
    + destruct (String.eqb_spec k k1) as [->|Hk1]; cbn in *; [exact Hin|].
      destruct Hin as [E|Hin]; [now left | right; now apply IH].
Qed.

Section AttendanceMore.
Import Attendance.
Variable toLocaleString : option jsval -> string.
Variable null_read_message : string -> string.

Let v := view toLocaleString null_read_message.
Let after := after_get toLocaleString null_read_message.

(** X10. The query [load] sends always names the selected mode under
    [filter_type]. It carries [date] exactly in single mode with a date
    filled in, and [start_date] and [end_date] exactly in range mode with
    both bounds filled in (one bound alone sends neither); it never
    carries the same name twice. *)
Theorem attendance_query_shape :
  forall st : state,
    let mode := filterType_value st in
    let single := String.eqb mode "single" && JsString.truthy (singleDate_value st) in
    let range := String.eqb mode "range" && JsString.truthy (startDate_value st)
                 && JsString.truthy (endDate_value st) in
    params_get "filter_type" (query st) = Some mode
    /\ params_get "date" (query st) = (if single then Some (singleDate_value st) else None)
    /\ params_get "start_date" (query st) = (if range then Some (startDate_value st) else None)
    /\ params_get "end_date" (query st) = (if range then Some (endDate_value st) else None)
    /\ NoDup (List.map fst (query st))
    /\ snd (load toLocaleString null_read_message st)
       = Await (GET "/api/attendance" (Some (query st)))
           (fun r st' => (after r st', Done)).
Proof.
  intros st mode single range. subst mode single range after.
  assert (Hkeys : NoDup (List.map fst (query st))).
  { unfold query.
    destruct (_ && _ && _); destruct (_ && _);
      repeat apply params_set_keys; constructor. }
  split; [|split; [|split; [|split; [|split; [exact Hkeys | reflexivity]]]]]; unfold query.
  - destruct (String.eqb_spec (filterType_value st) "range") as [Hr|Hr]; cbn [andb].
    + destruct (JsString.truthy (startDate_value st) && JsString.truthy (endDate_value st)).
      * rewrite !params_get_set_other by discriminate.
        rewrite params_get_set_same. now rewrite Hr.
      * destruct (_ && _); rewrite ?params_get_set_other by discriminate;
          apply params_get_set_same.
    + destruct (_ && _); rewrite ?params_get_set_other by discriminate;
        apply params_get_set_same.
  - destruct (String.eqb (filterType_value st) "single" && JsString.truthy (singleDate_value st));
      destruct (_ && _ && _); rewrite ?(params_get_set_other "end_date" "date"),
        ?(params_get_set_other "start_date" "date"),
        ?(params_get_set_other "filter_type" "date") by discriminate;
      rewrite ?params_get_set_same; reflexivity.
  - destruct (String.eqb (filterType_value st) "single" && JsString.truthy (singleDate_value st));
      destruct (_ && _ && _); rewrite ?(params_get_set_other "end_date" "start_date"),
        ?(params_get_set_other "date" "start_date") by discriminate;
      rewrite ?params_get_set_same; reflexivity.
  - destruct (String.eqb (filterType_value st) "single" && JsString.truthy (singleDate_value st));
      destruct (_ && _ && _); rewrite ?(params_get_set_other "date" "end_date") by discriminate;
      rewrite ?params_get_set_same; reflexivity.
Qed.





Lemma after_get_tbody (r : outcome jsval) (st st' : state) :
  tbody_html (after r st) = tbody_html (after r st').
Proof.
  subst after. unfold after_get. destruct r as [data|e]; [|reflexivity].
  destruct (negb (isArray data)); [reflexivity|].
  destruct (List.length (items_of data) =? 0)%nat; [reflexivity|].
  destruct (render_rows _ _ _); reflexivity.
Qed.

(** X13. Nothing cancels a fetch. After two clicks, if the second request
    settles first and the first one last, the table shows what the first,
    older request returned, exactly as if the second click had not been
    made. *)
Theorem attendance_late_response_overwrites :
  forall (s : state) (r1 r2 : outcome jsval),
    apply_disabled s = false ->
    let p := run v (idle s) [Click; Click; Settle 1 r2; Settle 0 r1] in
    tbody_html (dom p) = tbody_html (dom (run v (idle s) [Click; Settle 0 r1]))
    /\ inflight p = []
    /\ List.length (sent p) = 2%nat.
Proof.
  intros s r1 r2 Hb. subst v. cbv zeta.
  unfold run, idle. cbn [fold_left step dom view button_disabled].
  rewrite Hb. cbn. rewrite Hb. cbn.
  split; [apply after_get_tbody|]. split; reflexivity.
Qed.

Lemma after_get_controls (r : outcome jsval) (st : state) :
  filterType_value (after r st) = filterType_value st
  /\ singleDate_value (after r st) = singleDate_value st
  /\ startDate_value (after r st) = startDate_value st
  /\ endDate_value (after r st) = endDate_value st
  /\ singleWrap_hidden (after r st) = singleWrap_hidden st
  /\ rangeWrap_hidden (after r st) = rangeWrap_hidden st.
Proof.
  subst after. unfold after_get. destruct r as [data|e]; [|repeat split].
  destruct (negb (isArray data)); [repeat split|].
  destruct (List.length (items_of data) =? 0)%nat; [repeat split|].
  destruct (render_rows _ _ _); repeat split.
Qed.

Lemma switchMode_matches (st : state) : wraps_match (switchMode st).
Proof.
  unfold wraps_match, switchMode.
  destruct (String.eqb (filterType_value st) "single") eqn:E; cbn; rewrite E; split; reflexivity.
Qed.

(** X14. Once [switchMode] has run, as it does when the view is set up,
    the inputs shown always match the selected mode: the single-date input
    is visible exactly in mode 'single' and the range inputs exactly
    otherwise, whatever the user types or clicks and however the fetches
    settle. *)
Theorem attendance_inputs_match_mode :
  forall (s : state) (evs : list (event input)),
    let st := dom (run v (idle (switchMode s)) evs) in
    (singleWrap_hidden st = false <-> filterType_value st = "single")
    /\ rangeWrap_hidden st = negb (singleWrap_hidden st).
Proof.
  intros s evs st.
  assert (H : wraps_match st).
  { subst st.
    pose (Inv := fun p : page state =>
                   wraps_match (dom p)
                   /\ Forall (fun x => snd x = (fun r st' => (after r st', Done))) (inflight p)).
    assert (Hstep : forall p ev, Inv p -> Inv (step v p ev)).
    { intros p ev [Hw Hall]. unfold Inv. destruct ev as [|i|i r].
      - subst v. cbn [step view button_disabled Async.on_click].
        destruct (apply_disabled (dom p)); [split; assumption|].
        cbn. split; [exact Hw|]. apply Forall_app. split; [exact Hall|].
        constructor; [reflexivity | constructor].
      - split; [|exact Hall]. subst v. cbn [step dom view Async.on_input].
        destruct i; cbn [on_input]; [apply switchMode_matches | exact Hw ..].
      - cbn [step]. destruct (nth_error (inflight p) i) as [[rq k]|] eqn:Hn;
          [|split; assumption].
        assert (Hk : k = (fun r st' => (after r st', Done))).
        { apply nth_error_In in Hn. rewrite Forall_forall in Hall. exact (Hall _ Hn). }
        subst k. cbn. rewrite app_nil_r. split.
        + destruct (after_get_controls r (dom p)) as [Hf [_ [_ [_ [Hsw Hrw]]]]].
          unfold wraps_match. rewrite Hf, Hsw, Hrw. exact Hw.
        + clear Hn. revert i. induction Hall as [|x l Hx Hl IH]; intros i; destruct i; cbn;
            try constructor; auto. }
    apply (run_invariant v Inv Hstep). split; [apply switchMode_matches | constructor]. }
  destruct H as [Hs Hr]. rewrite Hs, Hr. split.
  - rewrite negb_false_iff. apply String.eqb_eq.
  - now rewrite negb_involutive.
Qed.

End AttendanceMore.

Lemma attendance_inputs_match_mode_witness :
  Attendance.singleWrap_hidden
    (dom (run attendance_view0 (idle (Attendance.switchMode attendance0))
            [UserInput (Attendance.ChooseMode "single"); Click; Settle 0 (Ok (VArr []))]))
  = false.
Proof.
  apply (proj1 (attendance_inputs_match_mode (fun d => ToString_opt d)
                  (fun k => ("null has no " ++ k)%string) attendance0
                  [UserInput (Attendance.ChooseMode "single"); Click; Settle 0 (Ok (VArr []))])).
  reflexivity.
Defined.



Lemma attendance_late_response_overwrites_witness :
  Attendance.tbody_html
    (dom (run attendance_view0 (idle attendance0)
            [Click; Click; Settle 1 (Ok (VArr [])); Settle 0 (Ok (VStr "busy"))]))
  = Attendance.notice "No data".
Proof.
  unfold attendance_view0.
  rewrite (proj1 (attendance_late_response_overwrites (fun d => ToString_opt d)
                    (fun k => ("null has no " ++ k)%string) attendance0
                    (Ok (VStr "busy")) (Ok (VArr [])) eq_refl)).
  reflexivity.
Defined.

(** ** The register form: what is sent and what is shown *)

Lemma trimEnd_first (c : ascii) (r : string) :
  JsString.is_space c = false ->
  exists r', JsString.trimEnd (String c r) = String c r'.
Proof.
  intros Hc. cbn [JsString.trimEnd]. destruct (JsString.trimEnd r); rewrite ?Hc; eauto.
Qed.

Lemma trimEnd_last (s : string) (c : ascii) :
  last_unit (JsString.trimEnd s) = Some c -> JsString.is_space c = false.
Proof.
  induction s as [|a s IH]; cbn [JsString.trimEnd]; [discriminate|].
  destruct (JsString.trimEnd s) as [|b u] eqn:E.
  - destruct (JsString.is_space a) eqn:Ea; cbn; [discriminate|].
    intros H. injection H as <-. exact Ea.
  - intros H. apply IH. exact H.
Qed.

(** A trimmed string neither starts nor ends with white space, and
    trimming it again changes nothing. *)
Lemma trim_ends (s : string) :
  (forall c, first_unit (JsString.trim s) = Some c -> JsString.is_space c = false)
  /\ (forall c, last_unit (JsString.trim s) = Some c -> JsString.is_space c = false).
Proof.
  unfold JsString.trim. split; [|intros c; apply trimEnd_last].
  intros c. destruct (trimStart_head s) as [-> | [a [r [-> Ha]]]]; [discriminate|].
  destruct (trimEnd_first a r Ha) as [r' ->]. cbn. intros H. injection H as <-. exact Ha.
Qed.

Section RegisterMore.
Import Register.

(** X15. Every request the register button issues is a POST to /register
    whose [name] is the trimmed name field, which is not empty and neither
    starts nor ends with white space, and whose [image] is the first file
    selected. *)
Theorem register_request_is_trimmed_post :
  forall (st : state) (rq : request) (k : outcome jsval -> state -> state * task state),
    snd (on_click st) = Await rq k ->
    exists (n : string) (f : file),
      rq = POST "/register" (Some (form_data n f st))
      /\ n = JsString.trim (name_value st) /\ n <> ""
      /\ (forall c, first_unit n = Some c -> JsString.is_space c = false)
      /\ (forall c, last_unit n = Some c -> JsString.is_space c = false)
      /\ hd_error (image_files st) = Some f
      /\ form_get "name" (form_data n f st) = Some (Text n)
      /\ form_get "image" (form_data n f st) = Some (Blob f).
Proof.
  intros st rq k H.
  destruct (string_dec (JsString.trim (name_value st)) "") as [He|Hne].
  { rewrite (on_click_no_name _ He) in H. discriminate. }
  destruct (image_files st) as [|f fs] eqn:Hf.
  { rewrite (on_click_no_file _ Hne Hf) in H. discriminate. }
  rewrite (on_click_submit _ f fs Hne Hf) in H. cbn [snd] in H.
  injection H as <- _.
  exists (JsString.trim (name_value st)), f.
  destruct (trim_ends (name_value st)) as [H1 H2].
  repeat split; try assumption; try reflexivity.
  unfold form_data, optional.
  destruct (JsString.truthy (email_value st)), (JsString.truthy (proxy_value st)),
    (JsString.truthy (salary_value st)); reflexivity.
Qed.

Lemma register_request_is_trimmed_post_witness :
  exists n f,
    POST "/register" (Some (form_data "Neil" face filled))
    = POST "/register" (Some (form_data n f filled))
    /\ n = "Neil".
Proof.
  destruct (register_request_is_trimmed_post filled
              (POST "/register" (Some (form_data "Neil" face filled)))
              (fun r st' => (after_post r st', Done)) eq_refl)
    as [n [f [H1 [H2 _]]]].
  exists n, f. split; [exact H1 | exact H2].
Defined.

(** X16. An optional field (email, proxy, salary) is sent exactly when its
    raw value is not empty, and what is sent is the trimmed value: a field
    holding only white space is sent as the empty string. The form data
    never holds a name twice. *)
Theorem register_optional_fields :
  forall (n : string) (f : file) (st : state),
    let fd := form_data n f st in
    form_get "email" fd
    = (if JsString.truthy (email_value st)
       then Some (Text (JsString.trim (email_value st))) else None)
    /\ form_get "proxy" fd
       = (if JsString.truthy (proxy_value st)
          then Some (Text (JsString.trim (proxy_value st))) else None)
    /\ form_get "salary" fd
       = (if JsString.truthy (salary_value st)
          then Some (Text (JsString.trim (salary_value st))) else None)
    /\ NoDup (List.map fst fd)
    /\ (email_value st <> "" -> all_space (email_value st) = true ->
        form_get "email" fd = Some (Text "")).
Proof.
  intros n f st fd. subst fd. unfold form_data, optional.
  split; [|split; [|split; [|split]]].
  - destruct (JsString.truthy (email_value st)), (JsString.truthy (proxy_value st)),
      (JsString.truthy (salary_value st)); reflexivity.
  - destruct (JsString.truthy (email_value st)), (JsString.truthy (proxy_value st)),
      (JsString.truthy (salary_value st)); reflexivity.
  - destruct (JsString.truthy (email_value st)), (JsString.truthy (proxy_value st)),
      (JsString.truthy (salary_value st)); reflexivity.
  - destruct (JsString.truthy (email_value st)), (JsString.truthy (proxy_value st)),
      (JsString.truthy (salary_value st)); cbn;
      repeat (constructor; [cbn; intuition discriminate|]); constructor.
  - intros Hne Hsp. apply trim_empty in Hsp. rewrite Hsp.
    destruct (email_value st); [congruence | reflexivity].
Qed.

Lemma register_optional_fields_witness :
  form_get "email"
    (form_data "Neil" face
       (set_fields "Neil" "  " "" "" [face] blank))
  = Some (Text "").
Proof.
  apply (register_optional_fields "Neil" face (set_fields "Neil" "  " "" "" [face] blank));
    [discriminate | reflexivity].
Defined.

Lemma on_input_text (i : input) (st : state) : btn_text (on_input i st) = btn_text st.
Proof.
  destruct i; try reflexivity.
  cbn [on_input]. unfold image_changed. cbn [image_files set_fields].
  destruct fs; reflexivity.
Qed.

Lemma register_label_step (p : page state) (ev : event input) :
  register_label_inv p -> register_label_inv (step view p ev).
Proof.
  intros Hp. destruct ev as [|i|i r].
  - cbn [step view button_disabled Async.on_click].
    destruct (btn_disabled (dom p)) eqn:Hb; [exact Hp|].
    destruct Hp as [[Hi [_ Ht]]|[rq [_ [Hd _]]]]; [|congruence].
    destruct (string_dec (JsString.trim (name_value (dom p))) "") as [He|Hne].
    { rewrite (on_click_no_name _ He). left. cbn. now rewrite Hi, Hb, Ht. }
    destruct (image_files (dom p)) as [|f fs] eqn:Hf.
    { rewrite (on_click_no_file _ Hne Hf). left. cbn. now rewrite Hi, Hb, Ht. }
    rewrite (on_click_submit _ f fs Hne Hf). right. cbn. rewrite Hi.
    eexists. repeat split.
  - cbn [step view Async.on_input dom inflight]. unfold register_label_inv. cbn [dom inflight].
    now rewrite on_input_button, on_input_text.
  - cbn [step]. destruct Hp as [[Hi [Hb Ht]]|[rq [Hi [Hb Ht]]]].
    + rewrite Hi. destruct i; cbn; left; now repeat split.
    + rewrite Hi. destruct i as [|i]; cbn.
      * left. repeat split.
      * destruct i; cbn; right; exists rq; now repeat split.
Qed.

(** X17. The register button reads "Uploading..." exactly while its POST
    is in flight and "Register" again as soon as the POST has settled,
    whichever way it settled. *)
Theorem register_label_follows_request :
  forall (s : state) (evs : list (event input)),
    btn_disabled s = false -> btn_text s = "Register" ->
    let p := run view (idle s) evs in
    btn_text (dom p) = (if busy p then "Uploading..." else "Register").
Proof.
  intros s evs Hb Ht p.
  assert (Hp : register_label_inv p).
  { apply (run_invariant view register_label_inv register_label_step).
    left. now repeat split. }
  destruct Hp as [[Hi [_ Hl]]|[rq [Hi [_ Hl]]]]; unfold busy; now rewrite Hi.
Qed.

Lemma register_label_follows_request_witness :
  btn_text (dom (run view (idle filled) [Click])) = "Uploading..."
  /\ btn_text (dom (run view (idle filled)
                      [Click; Settle 0 (Throw {| ename := TypeError; message := "Failed to fetch" |})]))
     = "Register".
Proof.
  split.
  - apply (register_label_follows_request filled [Click] eq_refl eq_refl).
  - apply (register_label_follows_request filled
             [Click; Settle 0 (Throw {| ename := TypeError; message := "Failed to fetch" |})]
             eq_refl eq_refl).
Defined.

Lemma register_preview_step (p : page state) (ev : event input) :
  register_preview_inv p -> register_preview_inv (step view p ev).
Proof.
  intros [Hc Hall]. unfold register_preview_inv. destruct ev as [|i|i r].
  - cbn [step view button_disabled Async.on_click].
    destruct (btn_disabled (dom p)); [split; assumption|].
    destruct (string_dec (JsString.trim (name_value (dom p))) "") as [He|Hne].
    { rewrite (on_click_no_name _ He). cbn. rewrite app_nil_r. split; assumption. }
    destruct (image_files (dom p)) as [|f fs] eqn:Hf.
    { rewrite (on_click_no_file _ Hne Hf). cbn. rewrite app_nil_r. split; assumption. }
    rewrite (on_click_submit _ f fs Hne Hf). cbn. split; [exact Hc|].
    apply Forall_app. split; [exact Hall | repeat constructor].
  - cbn [step view Async.on_input dom inflight]. split; [|exact Hall].
    destruct i; cbn [on_input]; try exact Hc.
    unfold image_changed. cbn [image_files set_fields]. destruct fs; reflexivity.
  - cbn [step]. destruct (nth_error (inflight p) i) as [[rq k]|] eqn:Hn;
      [|split; assumption].
    assert (Hk : k = after_register).
    { apply nth_error_In in Hn. rewrite Forall_forall in Hall. exact (Hall _ Hn). }
    subst k. cbn. rewrite app_nil_r. split.
    + unfold after_post, settle. destruct r as [data|e]; [|exact Hc].
      destruct (is_success data); [reflexivity | exact Hc].
    + clear Hn. revert i. induction Hall as [|x l Hx Hl IH]; intros i; destruct i; cbn;
        try constructor; auto.
Qed.

(** X18. Choosing files shows the preview of the first file, or the
    placeholder when none is chosen. From then on exactly one of the
    preview and the placeholder is visible, whatever is typed, clicked or
    answered by the server. *)
Theorem register_preview_or_placeholder :
  forall (s : state) (fs : list file) (evs : list (event input)),
    let st := on_input (ChooseFiles fs) s in
    (preview_hidden st = true <-> fs = [])
    /\ noprev_hidden st = negb (preview_hidden st)
    /\ (forall f rest, fs = f :: rest -> preview_src st = Some f)
    /\ preview_hidden (dom (run view (idle st) evs))
       = negb (noprev_hidden (dom (run view (idle st) evs))).
Proof.
  intros s fs evs st. subst st. cbn [on_input]. unfold image_changed.
  cbn [image_files set_fields].
  split; [|split; [|split]].
  - destruct fs; cbn; split; congruence.
  - destruct fs; reflexivity.
  - intros f rest ->. reflexivity.
  - apply (run_invariant view register_preview_inv register_preview_step).
    split; [destruct fs; reflexivity | constructor].
Qed.

Lemma register_preview_or_placeholder_witness :
  preview_src (on_input (ChooseFiles [face]) blank) = Some face
  /\ preview_hidden (on_input (ChooseFiles []) filled) = true.
Proof.
  split.
  - apply (proj1 (proj2 (proj2 (register_preview_or_placeholder blank [face] []))) face []).
    reflexivity.
  - apply (proj1 (register_preview_or_placeholder filled [] [])). reflexivity.
Defined.

(** X19. A click that runs to its end pushes exactly one toast, whichever
    way it goes: "Name is required", "Upload a face image", the success
    notice, or an error notice. The toast is of type 'info' only after a
    POST that reported success. *)
Theorem register_one_toast_per_click :
  forall (s : state) (r : outcome jsval),
    btn_disabled s = false ->
    exists msg type,
      toasts (dom (run view (idle s) [Click; Settle 0 r])) = pushToast msg type (toasts s)
      /\ (type = "info" \/ type = "error")
      /\ (type = "info" -> reports_success r).
Proof.
  intros s r Hb. unfold run, idle. cbn [fold_left step dom view button_disabled].
  rewrite Hb. change (Async.on_click view s) with (on_click s).
  destruct (string_dec (JsString.trim (name_value s)) "") as [He|Hne].
  { rewrite (on_click_no_name _ He). cbn. do 2 eexists.
    split; [reflexivity|]. split; [now right | discriminate]. }
  destruct (image_files s) as [|f fs] eqn:Hf.
  { rewrite (on_click_no_file _ Hne Hf). cbn. do 2 eexists.
    split; [reflexivity|]. split; [now right | discriminate]. }
  rewrite (on_click_submit _ f fs Hne Hf). cbn. unfold settle.
  destruct r as [data|e].
  - destruct (is_success data) eqn:Hd; cbn; do 2 eexists.
    + split; [reflexivity|]. split; [now left|]. intros _. now apply is_success_reports.
    + split; [reflexivity|]. split; [now right | discriminate].
  - cbn. do 2 eexists. split; [reflexivity|]. split; [now right | discriminate].
Qed.

Lemma register_one_toast_per_click_witness :
  exists msg type,
    toasts (dom (run view (idle filled) [Click; Settle 0 (Ok success_body)]))
    = pushToast msg type [].
Proof.
  destruct (register_one_toast_per_click filled (Ok success_body) eq_refl)
    as [msg [type [H _]]].
  exists msg, type. exact H.
Defined.

(** X20. When the server answers without success, the toast carries the
    server's message if the body has a non-empty one and "Unknown server
    response" if it has none (as with a plain-text body); when the POST
    throws, the toast carries the error's message. *)
Theorem register_failure_message_shown :
  forall (st : state) (data : jsval) (m : string) (e : jserror),
    (~ reports_success (Ok data) -> prop data "message" = Some (VStr m) -> m <> "" ->
     toasts (after_post (Ok data) st)
     = pushToast ("Registration error: " ++ m) "error" (toasts st))
    /\ (~ reports_success (Ok data) -> prop data "message" = None ->
        toasts (after_post (Ok data) st)
        = pushToast "Registration error: Unknown server response" "error" (toasts st))
    /\ toasts (after_post (Throw e) st)
       = pushToast ("Register failed: " ++ message e) "error" (toasts st).
Proof.
  intros st data m e. split; [|split; [|reflexivity]].
  - intros Hs Hm Hne. unfold after_post, settle.
    destruct (is_success data) eqn:Hd; [exfalso; apply Hs; now apply is_success_reports|].
    unfold failure_message. destruct data; try discriminate.
    cbn [truthy]. rewrite Hm. cbn [truthy ToString].
    destruct m; [congruence | reflexivity].
  - intros Hs Hm. unfold after_post, settle.
    destruct (is_success data) eqn:Hd; [exfalso; apply Hs; now apply is_success_reports|].
    unfold failure_message. rewrite Hm. destruct (truthy data); reflexivity.
Qed.

Lemma register_failure_message_shown_witness :
  toasts (after_post (Ok (VObj [("status", VStr "error"); ("message", VStr "No face found")]))
            filled)
  = pushToast "Registration error: No face found" "error" []
  /\ toasts (after_post (Ok (VStr "<html>502</html>")) filled)
     = pushToast "Registration error: Unknown server response" "error" [].
Proof.
  split.
  - apply (proj1 (register_failure_message_shown filled
                    (VObj [("status", VStr "error"); ("message", VStr "No face found")])
                    "No face found" {| ename := Error; message := "" |}));
      [intros [d [Hd Hs]]; injection Hd as <-; discriminate | reflexivity | discriminate].
  - apply (proj1 (proj2 (register_failure_message_shown filled (VStr "<html>502</html>")
                           "" {| ename := Error; message := "" |})));
      [intros [d [Hd Hs]]; injection Hd as <-; discriminate | reflexivity].
Defined.

End RegisterMore.

(** ** The dashboard: what a click leaves behind *)

Section DashboardMore.
Import Dashboard.

(** X21. The error of a failed POST is dropped: what the page shows and
    sends after the fallback GET has settled does not depend on why the
    POST failed. *)
Theorem mark_attendance_post_error_dropped :
  forall (s : state) (e1 e1' : jserror) (r2 : outcome jsval),
    dom (run view (idle s) [Click; Settle 0 (Throw e1); Settle 0 r2])
    = dom (run view (idle s) [Click; Settle 0 (Throw e1'); Settle 0 r2])
    /\ sent (run view (idle s) [Click; Settle 0 (Throw e1); Settle 0 r2])
       = sent (run view (idle s) [Click; Settle 0 (Throw e1'); Settle 0 r2]).
Proof.
  intros s e1 e1' r2. unfold run, idle. cbn [fold_left step dom view button_disabled].
  destruct (btn_disabled s); split; reflexivity.
Qed.

Lemma dashboard_processing_step (p : page state) (ev : event Empty_set) :
  dashboard_processing_inv p -> dashboard_processing_inv (step view p ev).
Proof.
  intros Hp. destruct ev as [|[]|i r].
  - cbn [step view button_disabled Async.on_click].
    destruct (btn_disabled (dom p)) eqn:Hb; [exact Hp|].
    destruct Hp as [[Hi _]|[rq [k [_ [_ [Hd _]]]]]]; [|congruence].
    right. cbn. rewrite Hi. do 2 eexists.
    split; [reflexivity|]. split; [left; reflexivity | split; reflexivity].
  - cbn [step]. destruct Hp as [[Hi Hb]|[rq [k [Hi [Hk [Hb Ht]]]]]].
    + rewrite Hi. destruct i; cbn; left; now split.
    + rewrite Hi. destruct i as [|i]; cbn.
      * destruct Hk as [-> | ->].
        -- destruct r as [res|e]; cbn.
           ++ left. split; reflexivity.
           ++ right. do 2 eexists. split; [reflexivity|].
              split; [now right | split; assumption].
        -- cbn. left. split; [reflexivity | destruct r; reflexivity].
      * destruct i; cbn; right; exists rq, k; auto.
Qed.

(** X22. While a request of the mark-attendance button is in flight, the
    POST or the fallback GET, the result box reads "Processing...". *)
Theorem mark_attendance_processing_while_busy :
  forall (s : state) (evs : list (event Empty_set)),
    btn_disabled s = false ->
    busy (run view (idle s) evs) = true ->
    pre_text (dom (run view (idle s) evs)) = "Processing...".
Proof.
  intros s evs Hb Hbusy.
  assert (Hp : dashboard_processing_inv (run view (idle s) evs)).
  { apply (run_invariant view dashboard_processing_inv dashboard_processing_step).
    left. now split. }
  destruct Hp as [[Hi _]|[rq [k [_ [_ [_ Ht]]]]]]; [|exact Ht].
  unfold busy in Hbusy. rewrite Hi in Hbusy. discriminate.
Qed.

Lemma mark_attendance_processing_while_busy_witness :
  pre_text (dom (run view (idle dashboard0)
                   [Click; Settle 0 (Throw {| ename := Error; message := "500 Internal" |})]))
  = "Processing...".
Proof.
  apply (mark_attendance_processing_while_busy dashboard0
           [Click; Settle 0 (Throw {| ename := Error; message := "500 Internal" |})]);
    reflexivity.
Defined.

(** X23. A click that runs to its end pushes exactly one toast: the
    success notice when the POST or else the GET succeeded, an error
    notice when both failed. *)
Theorem mark_attendance_one_toast_per_click :
  forall (s : state) (r1 r2 : outcome jsval),
    btn_disabled s = false ->
    exists msg type,
      toasts (dom (run view (idle s) [Click; Settle 0 r1; Settle 0 r2]))
      = pushToast msg type (toasts s)
      /\ (type = "error" <-> exists e1 e2, r1 = Throw e1 /\ r2 = Throw e2).
Proof.
  intros [d t ts] r1 r2 Hb. cbn in Hb. subst d.
  destruct r1 as [v1|e1]; [|destruct r2 as [v2|e2]]; do 2 eexists; (split; [reflexivity|]).
  - split; [discriminate | intros [? [? [H _]]]; discriminate].
  - split; [discriminate | intros [? [? [_ H]]]; discriminate].
  - split; [intros _; now exists e1, e2 | reflexivity].
Qed.

Lemma mark_attendance_one_toast_per_click_witness :
  exists msg type,
    toasts (dom (run view (idle dashboard0) [Click; Settle 0 (Ok VNull); Settle 0 (Ok VNull)]))
    = pushToast msg type [].
Proof.
  destruct (mark_attendance_one_toast_per_click dashboard0 (Ok VNull) (Ok VNull) eq_refl)
    as [msg [type [H _]]].
  exists msg, type. exact H.
Defined.

End DashboardMore.

(** ** The fetch wrappers: rejections and messages *)

Section WrappersMore.
Variable JSON_parse : string -> option jsval.
Variable syntax_message : string -> string.

Lemma status_line_nonempty (res : response) : status_line res <> "".
Proof.
  unfold status_line. destruct (JsString.of_Z (status res)); discriminate.
Qed.

(** X24. Both wrappers hand a rejection of [fetch] on unchanged. On a
    response that is not successful neither wrapper ever resolves, and the
    error it throws never has an empty message. *)
Theorem api_wrappers_failures :
  forall (e : jserror) (res : response),
    apiGET JSON_parse syntax_message (Throw e) = Throw e
    /\ apiPOST JSON_parse syntax_message (Throw e) = Throw e
    /\ (ok res = false ->
        exists e1 e2,
          apiGET JSON_parse syntax_message (Ok res) = Throw e1
          /\ apiPOST JSON_parse syntax_message (Ok res) = Throw e2
          /\ message e1 <> "" /\ message e2 <> ""
          /\ ename e1 = Error /\ ename e2 = Error).
Proof.
  intros e res. split; [reflexivity|]. split; [reflexivity|].
  intros Hok. unfold apiGET, apiPOST. rewrite Hok. cbn [negb].
  do 2 eexists. split; [reflexivity|]. split; [reflexivity|]. cbn [message ename].
  split; [apply status_line_nonempty|]. split; [|split; reflexivity].
  unfold post_error_message, text_or_null, text.
  destruct (content res) as [[|c b]|why]; cbn; try apply status_line_nonempty.
  discriminate.
Qed.

End WrappersMore.

Lemma api_wrappers_failures_witness :
  exists e1 e2,
    apiGET (fun _ => None) (fun _ => "") (Ok not_found) = Throw e1
    /\ apiPOST (fun _ => None) (fun _ => "") (Ok not_found) = Throw e2
    /\ message e1 <> "" /\ message e2 <> "".
Proof.
  destruct (proj2 (proj2 (api_wrappers_failures (fun _ => None) (fun _ => "")
                            {| ename := Error; message := "" |} not_found)) eq_refl)
    as [e1 [e2 [H1 [H2 [H3 [H4 _]]]]]].
  exists e1, e2. repeat split; assumption.
Defined.

(** ** The toast container *)

Lemma NoDup_map_filter {A B : Type} (f : A -> B) (p : A -> bool) (l : list A) :
  NoDup (List.map f l) -> NoDup (List.map f (filter p l)).
Proof.
  induction l as [|x l IH]; cbn; [auto|].
  intros H. inversion H as [|? ? Hx Hl]; subst.
  destruct (p x); cbn; [|now apply IH].
  constructor; [|now apply IH].
  intros Hin. apply Hx. apply in_map_iff in Hin. destruct Hin as [y [Hy Hin]].
  apply filter_In in Hin. apply in_map_iff. exists y. tauto.
Qed.

Lemma filter_filter_same {A : Type} (p : A -> bool) (l : list A) :
  filter p (filter p l) = filter p l.
Proof.
  induction l as [|x l IH]; cbn; [reflexivity|].
  destruct (p x) eqn:E; cbn; rewrite ?E, IH; reflexivity.
Qed.

Lemma filter_all {A : Type} (p : A -> bool) (l : list A) :
  (forall x, In x l -> p x = true) -> filter p l = l.
Proof.
  induction l as [|x l IH]; cbn; intros H; [reflexivity|].
  rewrite (H x (or_introl eq_refl)). f_equal. apply IH. intros y Hy. apply H. now right.
Qed.

Section ToasterFacts.
Import Toaster.

Lemma children_remove (i : nat) (t : toaster) :
  children (remove i t) = filter (fun e => negb (Nat.eqb (el e) i)) (children t).
Proof. unfold children, remove. cbn. destruct (container t); reflexivity. Qed.

Lemma scheduled_others (i j : nat) (t : toaster) (c : option (list element)) :
  i <> j ->
  scheduled j {| container := c; made := made t;
                 timers := filter (fun x => negb (Nat.eqb (fst x) i)) (timers t) |}
  = scheduled j t.
Proof.
  intros Hne. unfold scheduled. cbn [timers].
  induction (timers t) as [|[a ttl] l IH]; cbn; [reflexivity|].
  destruct (Nat.eqb_spec a i) as [->|Ha]; cbn.
  - destruct (Nat.eqb_spec i j); [congruence | exact IH].
  - now rewrite IH.
Qed.

Lemma toaster_inv_start : toaster_inv start.
Proof. repeat split; constructor. Qed.

Lemma toaster_inv_step (t : toaster) (e : event) : toaster_inv t -> toaster_inv (step t e).
Proof.
  intros [Hnd [Hlt Hsch]]. destruct e as [msg type ttl|i|i]; cbn [step].
  - unfold toaster_inv, push, children at 1 3 5. cbn [container made].
    split; [|split].
    + cbn. constructor; [|exact Hnd].
      intros Hin. apply in_map_iff in Hin. destruct Hin as [x [Hx Hin]].
      rewrite Forall_forall in Hlt. specialize (Hlt x Hin). lia.
    + constructor; [cbn; lia|].
      eapply Forall_impl; [|exact Hlt]. cbn. intros; lia.
    + constructor.
      * unfold scheduled. cbn. rewrite existsb_app. cbn.
        rewrite Nat.eqb_refl. now rewrite orb_true_r.
      * eapply Forall_impl; [|exact Hsch]. intros x Hx.
        unfold scheduled in *. cbn. rewrite existsb_app, Hx. reflexivity.
  - unfold toaster_inv. rewrite children_remove. split; [|split].
    + now apply NoDup_map_filter.
    + apply Forall_forall. intros x Hx. apply filter_In in Hx.
      rewrite Forall_forall in Hlt. apply Hlt. tauto.
    + apply Forall_forall. intros x Hx. apply filter_In in Hx.
      rewrite Forall_forall in Hsch. apply Hsch. tauto.
  - unfold expire. destruct (scheduled i t) eqn:Es; [|now repeat split].
    unfold toaster_inv. rewrite children_remove. unfold children at 1 2 3. cbn [container].
    fold (children t). split; [|split].
    + now apply NoDup_map_filter.
    + apply Forall_forall. intros x Hx. apply filter_In in Hx.
      rewrite Forall_forall in Hlt. apply Hlt. tauto.
    + apply Forall_forall. intros x Hx. apply filter_In in Hx. destruct Hx as [Hx Hxi].
      rewrite Forall_forall in Hsch. specialize (Hsch x Hx).
      unfold remove. cbn [container made timers].
      rewrite <- Hsch. apply scheduled_others.
      destruct (Nat.eqb_spec (el x) i); [discriminate | congruence].
Qed.

Lemma toaster_inv_run (evs : list event) : toaster_inv (run start evs).
Proof.
  unfold run. generalize toaster_inv_start. generalize start.
  induction evs as [|e evs IH]; intros t Ht; [exact Ht|].
  cbn. apply IH. now apply toaster_inv_step.
Qed.

Lemma children_expire (i : nat) (t : toaster) :
  toaster_inv t ->
  children (expire i t) = filter (fun e => negb (Nat.eqb (el e) i)) (children t).
Proof.
  intros [_ [_ Hsch]]. unfold expire. destruct (scheduled i t) eqn:Es.
  - rewrite children_remove. reflexivity.
  - symmetry. apply filter_all. intros x Hx.
    rewrite Forall_forall in Hsch. specialize (Hsch x Hx).
    destruct (Nat.eqb_spec (el x) i) as [E|]; [|reflexivity].
    rewrite E in Hsch. congruence.
Qed.

(** X25. A new toast goes to the front of the container and is a new
    element, unlike every element made before; the others stay as they
    are. It gets the red class exactly when its type is the string
    'error'. With the default lifetime the container's toasts are what the
    views' [pushToast] makes of them. *)
Theorem toaster_newest_first :
  forall (evs : list event) (msg type : string) (ttl : Z),
    let t := run start evs in
    children (push msg type ttl t)
    = {| el := made t;
         el_toast := {| t_msg := msg; t_type := type; t_ttl := ttl |};
         el_class := toast_class type |} :: children t
    /\ ~ In (made t) (List.map el (children t))
    /\ (toast_class type = "px-4 py-3 rounded-lg shadow-xl bg-red-700 text-slate-100"
        <-> type = "error")
    /\ List.map el_toast (children (push msg type 6000 t))
       = pushToast msg type (List.map el_toast (children t)).
Proof.
  intros evs msg type ttl t.
  destruct (toaster_inv_run evs) as [_ [Hlt _]]. fold t in Hlt.
  split; [reflexivity|]. split; [|split; [|reflexivity]].
  - intros Hin. apply in_map_iff in Hin. destruct Hin as [x [Hx Hin]].
    rewrite Forall_forall in Hlt. specialize (Hlt x Hin). lia.
  - unfold toast_class. destruct (String.eqb_spec type "error") as [->|Hne].
    + split; reflexivity.
    + split; [discriminate | congruence].
Qed.

(** X26. A toast leaves by its timer or by its Dismiss link, whichever
    comes first: either one takes exactly that toast out and leaves the
    others in their order, and the one that comes second changes nothing. *)
Theorem toaster_removed_once :
  forall (evs : list event) (i : nat),
    let t := run start evs in
    let others := filter (fun e => negb (Nat.eqb (el e) i)) (children t) in
    children (step t (Dismiss i)) = others
    /\ children (step t (Expire i)) = others
    /\ children (step (step t (Dismiss i)) (Expire i)) = others
    /\ children (step (step t (Expire i)) (Dismiss i)) = others
    /\ (In i (List.map el (children t)) ->
        S (List.length others) = List.length (children t)).
Proof.
  intros evs i t others. pose proof (toaster_inv_run evs) as Ht. fold t in Ht.
  assert (Hd : children (step t (Dismiss i)) = others) by apply children_remove.
  assert (He : children (step t (Expire i)) = others) by now apply children_expire.
  split; [exact Hd|]. split; [exact He|]. split; [|split].
  - cbn [step]. rewrite children_expire by (apply (toaster_inv_step t (Dismiss i)), Ht).
    cbn [step] in Hd. rewrite Hd. apply filter_filter_same.
  - cbn [step]. rewrite children_remove. cbn [step] in He. rewrite He.
    apply filter_filter_same.
  - destruct Ht as [Hnd _]. subst others. clear Hd He.
    induction (children t) as [|x l IH]; cbn; [intros []|].
    intros Hin. inversion Hnd as [|? ? Hx Hl]; subst.
    destruct (Nat.eqb_spec (el x) i) as [E|Hne]; cbn.
    + f_equal. rewrite filter_all; [reflexivity|]. intros y Hy.
      destruct (Nat.eqb_spec (el y) i) as [Ey|]; [|reflexivity].
      exfalso. apply Hx. rewrite E, <- Ey. now apply in_map.
    + f_equal. apply IH; [exact Hl|]. destruct Hin as [E|Hin]; [congruence | exact Hin].
Qed.

Lemma toaster_removed_once_witness :
  List.length (children (step (run start [Push "a" "info" 6000; Push "b" "error" 6000])
                           (Dismiss 0)))
  = 1%nat.
Proof.
  pose proof (toaster_removed_once [Push "a" "info" 6000; Push "b" "error" 6000] 0) as H.
  cbv zeta in H. destruct H as [Hd [_ [_ [_ Hlen]]]].
  rewrite Hd. apply eq_add_S. rewrite Hlen; [reflexivity|].
  cbn. right. now left.
Defined.

Lemma run_pushes (calls : list (string * string * Z)) (t : toaster) :
  List.map el_toast (children (run t (List.map push_event calls)))
  = (rev (List.map toast_of_call calls) ++ List.map el_toast (children t))%list.
Proof.
  revert t. induction calls as [|[[msg type] ttl] calls IH]; intros t; [reflexivity|].
  cbn [List.map push_event run fold_left step]. fold (run (push msg type ttl t) (List.map push_event calls)).
  rewrite IH. cbn [rev toast_of_call]. rewrite <- app_assoc. reflexivity.
Qed.

(** X27. The container has no limit and merges nothing: after any number
    of calls with nothing removed it holds one toast per call, the last
    call first, equal messages included. *)
Theorem toaster_keeps_every_call :
  forall calls : list (string * string * Z),
    List.map el_toast (children (run start (List.map push_event calls)))
    = rev (List.map toast_of_call calls)
    /\ List.length (children (run start (List.map push_event calls))) = List.length calls.
Proof.
  intros calls. pose proof (run_pushes calls start) as H.
  cbn [children start container List.map] in H. rewrite app_nil_r in H.
  split; [exact H|].
  rewrite <- (length_map el_toast), H, length_rev, length_map. reflexivity.
Qed.

End ToasterFacts.

(** ** The navigation bar *)

Section NavFacts.
Import Nav.

Lemma existsb_eqb_In (t : string) (l : list string) :
  existsb (String.eqb t) l = true <-> In t l.
Proof.
  rewrite existsb_exists. split.
  - intros [x [Hx E]]. apply String.eqb_eq in E. now subst.
  - intros H. exists t. split; [exact H | apply String.eqb_refl].
Qed.

Lemma In_toggle (c t : string) (force : bool) (l : list string) :
  In c (toggle t force l) <-> (if force then c = t \/ In c l else In c l /\ c <> t).
Proof.
  unfold toggle. destruct force.
  - destruct (existsb (String.eqb t) l) eqn:E.
    + apply existsb_eqb_In in E. split; [now right | intros [-> | H]; assumption].
    + rewrite in_app_iff. cbn. intuition congruence.
  - rewrite filter_In. destruct (String.eqb_spec t c); cbn; intuition congruence.
Qed.

Lemma NoDup_toggle (t : string) (force : bool) (l : list string) :
  NoDup l -> NoDup (toggle t force l).
Proof.
  intros H. unfold toggle. destruct force.
  - destruct (existsb (String.eqb t) l) eqn:E; [exact H|].
    apply NoDup_app; [exact H | repeat constructor; intros [] |].
    intros x Hx [<-|[]]. apply existsb_eqb_In in Hx. congruence.
  - now apply NoDup_filter.
Qed.

(** A toggle that finds the class list as it wants it leaves it alone. *)
Lemma toggle_fix (t : string) (force : bool) (l : list string) :
  (if force then In t l else ~ In t l) -> toggle t force l = l.
Proof.
  unfold toggle. destruct force; intros H.
  - apply existsb_eqb_In in H. now rewrite H.
  - apply filter_all. intros x Hx. destruct (String.eqb_spec t x); [congruence | reflexivity].
Qed.

Lemma restyle_classes (current : string) (b : button) :
  let cs := classList (restyle current b) in
  if String.eqb (nav b) current
  then In "bg-white/10" cs /\ In "text-white" cs
       /\ ~ In "hover:bg-white/10" cs /\ ~ In "text-slate-200" cs
  else ~ In "bg-white/10" cs /\ ~ In "text-white" cs
       /\ In "hover:bg-white/10" cs /\ In "text-slate-200" cs.
Proof.
  intros cs. subst cs. unfold restyle. cbn [classList].
  destruct (String.eqb (nav b) current); cbn [negb];
    rewrite !In_toggle; intuition (discriminate || congruence).
Qed.

Lemma restyle_idem (current : string) (b : button) :
  restyle current (restyle current b) = restyle current b.
Proof.
  pose proof (restyle_classes current b) as H. cbv zeta in H.
  unfold restyle at 1. cbn [nav restyle].
  set (L := classList (restyle current b)) in *.
  change (restyle current b) with {| nav := nav b; classList := L |}.
  f_equal.
  destruct (String.eqb (nav b) current); cbn [negb];
    destruct H as [H1 [H2 [H3 H4]]];
    rewrite (toggle_fix "bg-white/10"), (toggle_fix "text-white"),
      (toggle_fix "hover:bg-white/10"), (toggle_fix "text-slate-200"); auto.
Qed.

(** X28. After [setActiveNav(current)] a navigation button carries the two
    active classes and neither inactive class exactly when its [data-nav]
    equals [current], and the two inactive classes and neither active class
    otherwise. *)
Theorem nav_active_styles :
  forall (current : string) (bs : list button) (b : button),
    In b (setActiveNav current bs) ->
    (nav b = current ->
     In "bg-white/10" (classList b) /\ In "text-white" (classList b)
     /\ ~ In "hover:bg-white/10" (classList b) /\ ~ In "text-slate-200" (classList b))
    /\ (nav b <> current ->
        ~ In "bg-white/10" (classList b) /\ ~ In "text-white" (classList b)
        /\ In "hover:bg-white/10" (classList b) /\ In "text-slate-200" (classList b)).
Proof.
  intros current bs b Hin. unfold setActiveNav in Hin.
  apply in_map_iff in Hin. destruct Hin as [b0 [<- _]].
  pose proof (restyle_classes current b0) as H. cbv zeta in H.
  change (nav (restyle current b0)) with (nav b0).
  destruct (String.eqb_spec (nav b0) current) as [E|E]; split; intros E'; try congruence;
    exact H.
Qed.

Lemma nav_active_styles_witness :
  In "text-white"
     (classList (restyle "users" {| nav := "users"; classList := ["px-3"; "text-slate-200"] |}))
  /\ ~ In "text-slate-200"
       (classList (restyle "users" {| nav := "users"; classList := ["px-3"; "text-slate-200"] |})).
Proof.
  destruct (proj1 (nav_active_styles "users"
                     [{| nav := "users"; classList := ["px-3"; "text-slate-200"] |}]
                     (restyle "users" {| nav := "users"; classList := ["px-3"; "text-slate-200"] |})
                     (or_introl eq_refl)) eq_refl) as [_ [H2 [_ H4]]].
  split; [exact H2 | exact H4].
Defined.

(** X29. [setActiveNav] touches nothing but its four classes: the buttons
    and their [data-nav] values stay, every other class of a button stays,
    no class appears twice, and calling it again with the same argument
    changes nothing. *)
Theorem nav_restyle_frame :
  forall (current : string) (bs : list button),
    List.map nav (setActiveNav current bs) = List.map nav bs
    /\ (forall b c, ~ In c nav_classes ->
          (In c (classList (restyle current b)) <-> In c (classList b)))
    /\ (forall b, NoDup (classList b) -> NoDup (classList (restyle current b)))
    /\ setActiveNav current (setActiveNav current bs) = setActiveNav current bs.
Proof.
  intros current bs. unfold setActiveNav. split; [|split; [|split]].
  - rewrite map_map. reflexivity.
  - intros b c Hc. unfold restyle. cbn [classList]. unfold nav_classes in Hc.
    assert (H1 : c <> "bg-white/10") by (intros ->; apply Hc; cbn; auto).
    assert (H2 : c <> "text-white") by (intros ->; apply Hc; cbn; auto).
    assert (H3 : c <> "hover:bg-white/10") by (intros ->; apply Hc; cbn; auto).
    assert (H4 : c <> "text-slate-200") by (intros ->; apply Hc; cbn; auto).
    destruct (String.eqb (nav b) current); cbn [negb];
      repeat (rewrite In_toggle; cbv iota); tauto.
  - intros b Hnd. unfold restyle. cbn [classList]. now repeat apply NoDup_toggle.
  - rewrite map_map. apply map_ext. apply restyle_idem.
Qed.

Lemma nav_restyle_frame_witness :
  In "px-3" (classList (restyle "users" {| nav := "home"; classList := ["px-3"] |})).
Proof.
  apply (proj1 (proj2 (nav_restyle_frame "users" []))
           {| nav := "home"; classList := ["px-3"] |} "px-3").
  - cbn. intuition discriminate.
  - now left.
Defined.

End NavFacts.

(** ** Keyboard shortcuts *)

Section ShortcutFacts.
Import Shortcuts.
Variable W : Type.

Lemma keydown_editing (e : keyevent) (win : window W) :
  isEdit (ev_target e) = true -> keydown W e win = win.
Proof.
  intros He. destruct win as [ls n w]. unfold keydown. cbn [listeners added world]. f_equal.
  induction ls as [|x ls IH]; cbn; [reflexivity|].
  unfold onKey at 2. rewrite He. exact IH.
Qed.

(** X30. No shortcut runs while the user is typing: a key pressed on an
    input, a textarea or a select (the tag name compared without regard to
    letter case) or on an editable element changes nothing, whatever
    listeners and maps are installed. A key event without a target, or on
    a target that has no tag name and is not editable, is not held back. *)
Theorem shortcuts_ignored_while_typing :
  forall (e : keyevent) (win : window W) (tag : string) (editable : bool),
    (isEdit (ev_target e) = true -> keydown W e win = win)
    /\ (JsString.toLowerCase tag = "input" \/ JsString.toLowerCase tag = "textarea"
        \/ JsString.toLowerCase tag = "select" \/ editable = true ->
        isEdit (Some {| tagName := Some tag; isContentEditable := editable |}) = true)
    /\ isEdit None = false
    /\ isEdit (Some {| tagName := None; isContentEditable := false |}) = false.
Proof.
  intros e win tag editable. split; [apply keydown_editing|].
  split; [|split; reflexivity].
  unfold isEdit, tag_of. cbn [tagName isContentEditable]. rewrite or_empty_some.
  intros [-> | [-> | [-> | ->]]]; cbn; try reflexivity.
  now rewrite !orb_true_r.
Qed.

(** X8. The function [initShortcuts] returns takes its listener away and
    no other: the window then reacts to keys as it did before the call.
    While installed on a window without other listeners, the listener runs
    the callback stored under the pressed key, once, and does nothing for
    a key without one. *)
Theorem shortcuts_dispose_restores :
  forall (win : window W) (map : shortcuts W) (e : keyevent),
    Forall (fun x => (fst x < added W win)%nat) (listeners W win) ->
    let win' := fst (initShortcuts W map win) in
    let i := snd (initShortcuts W map win) in
    listeners W (dispose W i win') = listeners W win
    /\ world W (keydown W e (dispose W i win')) = world W (keydown W e win)
    /\ Forall (fun x => (fst x < added W win')%nat) (listeners W win')
    /\ (listeners W win = [] -> isEdit (ev_target e) = false ->
        world W (keydown W e win')
        = match map (key e) with
          | Some callback => callback (world W win)
          | None => world W win
          end).
Proof.
  intros win map e Hall win' i. subst win' i. cbn [fst snd initShortcuts].
  assert (Hl : listeners W (dispose W (added W win)
                              {| listeners := (listeners W win ++ [(added W win, map)])%list;
                                 added := S (added W win); world := world W win |})
               = listeners W win).
  { cbn [dispose listeners]. rewrite filter_app. cbn [filter fst].
    rewrite Nat.eqb_refl. cbn [negb]. rewrite app_nil_r.
    apply filter_all. intros x Hx. rewrite Forall_forall in Hall. specialize (Hall x Hx).
    destruct (Nat.eqb_spec (fst x) (added W win)); [lia | reflexivity]. }
  split; [exact Hl|]. split; [|split].
  - unfold keydown at 1. cbn [world]. rewrite Hl. reflexivity.
  - cbn [listeners added]. apply Forall_app. split.
    + eapply Forall_impl; [|exact Hall]. cbn. intros; lia.
    + repeat constructor.
  - intros Hnil He. cbn [keydown world listeners]. rewrite Hnil. cbn.
    unfold onKey. now rewrite He.
Qed.

End ShortcutFacts.

Lemma shortcuts_dispose_restores_witness :
  Shortcuts.world nat
    (Shortcuts.keydown nat {| Shortcuts.ev_target := None; Shortcuts.key := "u" |}
       (fst (Shortcuts.initShortcuts nat
               (fun k => if String.eqb k "u" then Some S else None)
               {| Shortcuts.listeners := []; Shortcuts.added := 0; Shortcuts.world := 0%nat |})))
  = 1%nat.
Proof.
  pose proof (shortcuts_dispose_restores nat
                {| Shortcuts.listeners := []; Shortcuts.added := 0; Shortcuts.world := 0%nat |}
                (fun k => if String.eqb k "u" then Some S else None)
                {| Shortcuts.ev_target := None; Shortcuts.key := "u" |}
                (Forall_nil _)) as H.
  cbv zeta in H. destruct H as [_ [_ [_ H]]].
  exact (H eq_refl eq_refl).
Defined.

Lemma shortcuts_ignored_while_typing_witness :
  Shortcuts.keydown nat
    {| Shortcuts.ev_target :=
         Some {| Shortcuts.tagName := Some "INPUT"; Shortcuts.isContentEditable := false |};
       Shortcuts.key := "u" |}
    (fst (Shortcuts.initShortcuts nat
            (fun k => if String.eqb k "u" then Some S else None)
            {| Shortcuts.listeners := []; Shortcuts.added := 0; Shortcuts.world := 0%nat |}))
  = fst (Shortcuts.initShortcuts nat
           (fun k => if String.eqb k "u" then Some S else None)
           {| Shortcuts.listeners := []; Shortcuts.added := 0; Shortcuts.world := 0%nat |}).
Proof.
  apply (proj1 (shortcuts_ignored_while_typing nat _ _ "" false)).
  apply (proj1 (proj2 (shortcuts_ignored_while_typing nat
                         {| Shortcuts.ev_target := None; Shortcuts.key := "" |}
                         {| Shortcuts.listeners := []; Shortcuts.added := 0;
                            Shortcuts.world := 0%nat |}
                         "INPUT" false))).
  left. reflexivity.
Defined.
